(** * The digits-embedding notebook: [plot_embedding] and [matplotlib_to_plotly]

    A shallow embedding of the two helper functions defined in the
    manifold-learning notebook, with the properties of their
    normalisation, annotation, de-duplication and colour-scale steps.

    Numbers.  The notebook computes on numpy [float64] arrays.  A float is
    modelled as an exact rational or one of the three IEEE special values
    [+inf], [-inf], [nan]; the special values follow the IEEE rules numpy
    applies (a division by zero yields [nan] or an infinity, [nan]
    propagates, a comparison with [nan] is false).  Rounding, overflow and
    the sign of zero are not modelled: a finite result is the exact
    rational result, kept in lowest terms so that equal values are equal
    terms. *)

From Stdlib Require Import List ZArith QArith Qround String Ascii Bool Lia Lqa.
From Stdlib Require Import DecimalString.
Import ListNotations.

(* ------------------------------------------------------------------ *)
(** ** Python exceptions and the error monad *)

Module Py.

(** The exceptions the two functions can raise. *)
Inductive exn : Type :=
| ValueError          (* reduction of a zero-size array *)
| IndexError          (* subscript out of range *)
| UnboundLocalError   (* local variable read before assignment *)
| ZeroDivisionError.  (* float division by a zero Python number *)

Inductive result (A : Type) : Type :=
| Ok (a : A)
| Raise (e : exn).

Arguments Ok {A} a.
Arguments Raise {A} e.

Definition bind {A B : Type} (c : result A) (k : A -> result B) : result B :=
  match c with
  | Ok a => k a
  | Raise e => Raise e
  end.

(** [for x in xs: s = body x s], stopping at the first exception. *)
Fixpoint for_each {A S : Type} (xs : list A) (body : A -> S -> result S)
         (s : S) : result S :=
  match xs with
  | [] => Ok s
  | x :: xs' => bind (body x s) (for_each xs' body)
  end.

(** [range(n)]. *)
Definition range (n : nat) : list nat := seq 0 n.

(** [l[i]] for a non-negative index. *)
Definition getitem {A : Type} (l : list A) (i : nat) : result A :=
  match nth_error l i with
  | Some a => Ok a
  | None => Raise IndexError
  end.

(** [str(n)] of an integer. *)
Definition str (n : Z) : string := NilZero.string_of_int (Z.to_int n).

End Py.

Import Py.

Declare Scope py_scope.
Delimit Scope py_scope with py.
Notation "x <- c ;; k" := (bind c (fun x => k))
  (at level 61, c at next level, right associativity) : py_scope.
Local Open Scope py_scope.

(* ------------------------------------------------------------------ *)
(** ** Floats *)

Inductive float : Type :=
| Fin (q : Q)
| PInf
| NInf
| NaN.

(** The numpy operations used by the notebook. *)
Module Np.

Definition Qltb (a b : Q) : bool :=
  match Qcompare a b with Lt => true | _ => false end.

Definition Qzerob (a : Q) : bool :=
  match Qcompare a 0 with Eq => true | _ => false end.

Definition of_Z (z : Z) : float := Fin (inject_Z z).

Definition add (a b : float) : float :=
  match a, b with
  | NaN, _ | _, NaN => NaN
  | Fin p, Fin q => Fin (Qred (p + q))
  | PInf, NInf | NInf, PInf => NaN
  | PInf, _ | _, PInf => PInf
  | NInf, _ | _, NInf => NInf
  end.

Definition sub (a b : float) : float :=
  match a, b with
  | NaN, _ | _, NaN => NaN
  | Fin p, Fin q => Fin (Qred (p - q))
  | PInf, PInf | NInf, NInf => NaN
  | PInf, _ | _, NInf => PInf
  | NInf, _ | _, PInf => NInf
  end.

(** Sign of a float that is not [nan]: [Lt] negative, [Eq] zero, [Gt] positive. *)
Definition sign (a : float) : comparison :=
  match a with
  | Fin q => Qcompare q 0
  | PInf => Gt
  | NInf => Lt
  | NaN => Eq
  end.

Definition signed_inf (s t : comparison) : float :=
  match s, t with
  | Eq, _ | _, Eq => NaN
  | Lt, Lt | Gt, Gt => PInf
  | _, _ => NInf
  end.

Definition mul (a b : float) : float :=
  match a, b with
  | NaN, _ | _, NaN => NaN
  | Fin p, Fin q => Fin (Qred (p * q))
  | _, _ => signed_inf (sign a) (sign b)
  end.

(** numpy's [/]: a zero divisor gives [nan] or an infinity, never an
    exception. *)
Definition div (a b : float) : float :=
  match a, b with
  | NaN, _ | _, NaN => NaN
  | Fin p, Fin q =>
      if Qzerob q then signed_inf (Qcompare p 0) Gt else Fin (Qred (p / q))
  | Fin _, _ => Fin 0
  | _, Fin q => if Qzerob q then a else signed_inf (sign a) (Qcompare q 0)
  | _, _ => NaN
  end.

(** [a < b]; false as soon as one side is [nan]. *)
Definition lt (a b : float) : bool :=
  match a, b with
  | NaN, _ | _, NaN => false
  | Fin p, Fin q => Qltb p q
  | NInf, NInf | PInf, _ | _, NInf => false
  | _, _ => true
  end.

(** [np.minimum] and [np.maximum] of two floats: [nan] wins. *)
Definition minimum (a b : float) : float :=
  match a, b with
  | NaN, _ => NaN
  | _, NaN => NaN
  | _, _ => if lt b a then b else a
  end.

Definition maximum (a b : float) : float :=
  match a, b with
  | NaN, _ => NaN
  | _, NaN => NaN
  | _, _ => if lt a b then b else a
  end.

(** [np.min] and [np.max] of a one-dimensional array. *)
Definition min (l : list float) : result float :=
  match l with
  | [] => Raise ValueError
  | a :: l' => Ok (fold_left minimum l' a)
  end.

Definition max (l : list float) : result float :=
  match l with
  | [] => Raise ValueError
  | a :: l' => Ok (fold_left maximum l' a)
  end.

(** [np.uint8(x)] of a float: truncation towards zero, then the low
    eight bits; the cast of a non-finite value is taken as 0. *)
Definition uint8 (a : float) : Z :=
  match a with
  | Fin q => (Z.quot (Qnum q) (Zpos (Qden q))) mod 256
  | _ => 0
  end.

Definition is_finite (a : float) : Prop :=
  match a with Fin _ => True | _ => False end.

End Np.

Declare Scope np_scope.
Delimit Scope np_scope with np.
Infix "+" := Np.add : np_scope.
Infix "-" := Np.sub : np_scope.
Infix "*" := Np.mul : np_scope.
Infix "/" := Np.div : np_scope.
Infix "<?" := Np.lt : np_scope.

(** A row of an N x 2 array. *)
Definition row : Type := (float * float)%type.

(* ------------------------------------------------------------------ *)
(** ** Chart objects *)

(** The dictionaries and graph objects the functions build, with the
    keys the source gives them. *)
Module go.

(** ['rgb' + str(t)] for a tuple [t] of three floats; the text of the
    floats is not modelled, the string is kept as its three components. *)
Inductive rgb_str : Type :=
| Rgb (r g b : float).

Definition rgb_of (t : float * float * float) : rgb_str :=
  let '(r, g, b) := t in Rgb r g b.

Record Font : Type := mkFont {
  size : Z;
  color : rgb_str
}.

Record Annotation : Type := mkAnnotation {
  x : float;
  y : float;
  text : string;
  showarrow : bool;
  font : Font
}.

Record Line : Type := mkLine {
  line_color : string;
  width : Z
}.

Record Marker : Type := mkMarker {
  marker_color : string;
  marker_size : Z;
  line : Line
}.

Record Scatter : Type := mkScatter {
  xs : list float;
  ys : list float;
  showlegend : bool;
  mode : string;
  marker : Marker
}.

Record Axis : Type := mkAxis {
  ticks : string;
  showticklabels : bool;
  showgrid : bool;
  zeroline : bool
}.

Record Layout : Type := mkLayout {
  annotations : list Annotation;
  title : option string;
  xaxis : Axis;
  yaxis : Axis
}.

Record Figure : Type := mkFigure {
  data : list Scatter;
  layout : Layout
}.

End go.

(* ------------------------------------------------------------------ *)
(** ** The notebook's global names *)

(** [digits = datasets.load_digits(n_class=6)]: the function reads
    [digits.data.shape[0]] and [digits.target]. *)
Record Digits : Type := mkDigits {
  data_shape0 : nat;
  target : list Z
}.

(** The module-level names [plot_embedding] reads: it has no label
    parameter, [digits] and [y] are looked up in the notebook's globals. *)
Record Globals : Type := mkGlobals {
  digits : Digits;
  y : list Z
}.

(** A matplotlib colormap, called on a float, returns an RGBA tuple. *)
Definition rgba : Type := (float * float * float * float)%type.
Definition colormap : Type := float -> rgba.

(** [t[:3]] of an RGBA tuple. *)
Definition first3 (c : rgba) : float * float * float :=
  let '(r, g, b, _) := c in (r, g, b).

(* ------------------------------------------------------------------ *)
(** ** [plot_embedding] *)

Local Open Scope np_scope.

(** [np.min(X, 0)] and [np.max(X, 0)]: the column-wise reductions. *)
Definition np_min_axis0 (X : list row) : result row :=
  m0 <- Np.min (map fst X) ;;
  m1 <- Np.min (map snd X) ;;
  Ok (m0, m1).

Definition np_max_axis0 (X : list row) : result row :=
  m0 <- Np.max (map fst X) ;;
  m1 <- Np.max (map snd X) ;;
  Ok (m0, m1).

(** One row of [(X - x_min) / (x_max - x_min)], broadcast over the rows. *)
Definition rescale (x_min x_max : row) (r : row) : row :=
  ((fst r - fst x_min) / (fst x_max - fst x_min),
   (snd r - snd x_min) / (snd x_max - snd x_min)).

(** Lines 502-503:
    [x_min, x_max = np.min(X, 0), np.max(X, 0)]
    [X = (X - x_min) / (x_max - x_min)]. *)
Definition normalize (X : list row) : result (list row) :=
  x_min <- np_min_axis0 X ;;
  x_max <- np_max_axis0 X ;;
  Ok (map (rescale x_min x_max) X).

(** The threshold [4e-3]. *)
Definition threshold : float := Fin (4 # 1000).

(** [np.array([[1., 1.]])  # just something big]. *)
Definition seed : row := (Fin 1, Fin 1).

(** One entry of [np.sum((X[i] - shown_images) ** 2, 1)]. *)
Definition sqdist (p s : row) : float :=
  let dx := fst p - fst s in
  let dy := snd p - snd s in
  dx * dx + dy * dy.

(** The local state of the second loop: the array [shown_images] and
    the lists [x_], [y_], which are unbound until a row is kept. *)
Record scan_state : Type := mkScan {
  shown_images : list row;
  x_y_ : option (list float * list float)
}.

Definition scan_init : scan_state := mkScan [seed] None.

Section PlotEmbedding.

(** [plt.cm.Set1], a colormap of the plotting library. *)
Variable Set1 : colormap.

(** Body of the first loop (lines 506-512). *)
Definition annotate (g : Globals) (X : list row) (i : nat)
           (anno : list go.Annotation) : result (list go.Annotation) :=
  Xi <- getitem X i ;;
  t <- getitem (target (digits g)) i ;;
  yi <- getitem (y g) i ;;
  Ok (anno ++ [go.mkAnnotation (fst Xi) (snd Xi) (str t) false
                 (go.mkFont 11
                    (go.rgb_of (first3 (Set1 (Np.of_Z yi / Fin 10)))))]).

(** Body of the second loop (lines 516-530). *)
Definition scan_body (X : list row) (i : nat) (st : scan_state)
  : result scan_state :=
  Xi <- getitem X i ;;
  let dist := map (sqdist Xi) (shown_images st) in
  m <- Np.min dist ;;
  if m <? threshold then
    (* don't show points that are too close *)
    Ok st
  else
    let shown := shown_images st ++ [Xi] in
    Ok (mkScan shown (Some (map fst shown, map snd shown))).

Definition axis_off : go.Axis := go.mkAxis "" false false false.

Definition plot_embedding (g : Globals) (X : list row) (title : option string)
  : result go.Figure :=
  X <- normalize X ;;
  anno <- for_each (range (List.length X)) (annotate g X) [] ;;
  st <- for_each (range (data_shape0 (digits g))) (scan_body X) scan_init ;;
  xy <- match x_y_ st with
        | Some xy => Ok xy
        | None => Raise UnboundLocalError
        end ;;
  let trace := go.mkScatter (fst xy) (snd xy) false "markers"
                 (go.mkMarker "white" 15 (go.mkLine "black" 1)) in
  let layout := go.mkLayout anno title axis_off axis_off in
  Ok (go.mkFigure [trace] layout).

End PlotEmbedding.

(* ------------------------------------------------------------------ *)
(** ** Auxiliary notions used in the statements *)

Definition notnan (a : float) : bool :=
  match a with NaN => false | _ => true end.

(** The order of the floats that are not [nan]. *)
Definition fle (a b : float) : Prop :=
  match a, b with
  | NaN, _ | _, NaN => False
  | NInf, _ | _, PInf => True
  | Fin p, Fin q => p <= q
  | _, _ => False
  end.

(** [np.min] of an array known to be non-empty. *)
Definition min_of (l : list float) : float :=
  match l with
  | [] => NaN
  | a :: l' => fold_left Np.minimum l' a
  end.

Definition max_of (l : list float) : float :=
  match l with
  | [] => NaN
  | a :: l' => fold_left Np.maximum l' a
  end.

(** One coordinate of the rescaling. *)
Definition rescale1 (v mn mx : float) : float := (v - mn) / (mx - mn).

(** The test [np.min(dist) < 4e-3] of the second loop. *)
Definition too_close (shown : list row) (Xi : row) : bool :=
  min_of (map (sqdist Xi) shown) <? threshold.

(** The second loop's body once [X[i]] has been read. *)
Definition scan_step (st : scan_state) (Xi : row) : scan_state :=
  if too_close (shown_images st) Xi then st
  else
    let shown := shown_images st ++ [Xi] in
    mkScan shown (Some (map fst shown, map snd shown)).

(** The state of the second loop after the rows [rows]. *)
Definition scan (rows : list row) : scan_state :=
  fold_left scan_step rows scan_init.

(** A greedy filter: [prev] are the points accepted so far, the result
    lists the rows of [rows] that [keep] accepts, in order. *)
Fixpoint greedy (keep : list row -> row -> bool) (prev rows : list row)
  : list row :=
  match rows with
  | [] => []
  | p :: rows' =>
      if keep prev p then p :: greedy keep (prev ++ [p]) rows'
      else greedy keep prev rows'
  end.

(** The rule the second loop applies: a row is kept when none of its
    squared distances to the earlier points is below the threshold, or
    when one of them is [nan]. *)
Definition keep_rule (prev : list row) (p : row) : bool :=
  existsb (fun s => negb (notnan (sqdist p s))) prev
  || forallb (fun s => negb (sqdist p s <? threshold)) prev.

(** The rows the second loop keeps, the seed left out. *)
Definition kept_rows (rows : list row) : list row :=
  greedy keep_rule [seed] rows.

(** [l1] is [l2] with some elements removed, the order unchanged. *)
Inductive subseq {A : Type} : list A -> list A -> Prop :=
| subseq_nil : subseq [] []
| subseq_skip (a : A) (l1 l2 : list A) : subseq l1 l2 -> subseq l1 (a :: l2)
| subseq_keep (a : A) (l1 l2 : list A) : subseq l1 l2 -> subseq (a :: l1) (a :: l2).

(** The annotation the first loop builds for row [i], the subscripts
    being in range. *)
Definition anno_at (Set1 : colormap) (g : Globals) (X : list row) (i : nat)
  : go.Annotation :=
  let Xi := nth i X (NaN, NaN) in
  go.mkAnnotation (fst Xi) (snd Xi) (str (nth i (target (digits g)) 0%Z)) false
    (go.mkFont 11
       (go.rgb_of (first3 (Set1 (Np.of_Z (nth i (y g) 0%Z) / Fin 10))))).

(** The figure [plot_embedding] returns from the normalised array, the
    annotations and the lists [x_], [y_]. *)
Definition figure_of (anno : list go.Annotation) (title : option string)
           (xy : list float * list float) : go.Figure :=
  go.mkFigure
    [go.mkScatter (fst xy) (snd xy) false "markers"
       (go.mkMarker "white" 15 (go.mkLine "black" 1))]
    (go.mkLayout anno title axis_off axis_off).

(** A column after the rescaling. *)
Definition normcol (col : list float) : list float :=
  map (fun v => rescale1 v (min_of col) (max_of col)) col.

Definition x_min_of (X : list row) : row :=
  (min_of (map fst X), min_of (map snd X)).

Definition x_max_of (X : list row) : row :=
  (max_of (map fst X), max_of (map snd X)).

(** A coordinate in the closed unit interval. *)
Definition in_unit (a : float) : Prop :=
  exists q, a = Fin q /\ 0 <= q /\ q <= 1.


(** A row within the threshold of the seed. *)
Definition near_seed (p : row) : bool := sqdist p seed <? threshold.


(** The lists [x_], [y_] handed to the trace after the scan of [rows]. *)
Definition trace_xy (rows : list row) : list float * list float :=
  (map fst (seed :: kept_rows rows), map snd (seed :: kept_rows rows)).


(** Two points that are not within the threshold of each other. *)
Definition apart (s p : row) : Prop := (sqdist p s <? threshold) = false.

(** The markers of a trace, as points. *)
Definition markers (tr : go.Scatter) : list row :=
  combine (go.xs tr) (go.ys tr).

(** The scan as the specification words it: the kept set starts empty
    and a row is kept when its squared distance to every kept point
    exceeds the threshold. *)
Definition keep_claimed (prev : list row) (p : row) : bool :=
  forallb (fun s => threshold <? sqdist p s) prev.

Definition dedup_claimed (rows : list row) : list row :=
  greedy keep_claimed [] rows.

(* ------------------------------------------------------------------ *)
(** ** [matplotlib_to_plotly] *)

(** Python's [a / b] for a float [a] and an integer [b]: a zero divisor
    raises. *)
Definition truediv (a : float) (b : Z) : result float :=
  if (b =? 0)%Z then Raise ZeroDivisionError else Ok (a / Np.of_Z b).

(** [range(n)] for an integer [n]. *)
Definition range_Z (n : Z) : list Z := map Z.of_nat (seq 0 (Z.to_nat n)).

(** [str((a, b, c))] for three integers. *)
Definition str_tuple3 (a b c : Z) : string :=
  String.append "("
    (String.append (str a)
       (String.append ", "
          (String.append (str b)
             (String.append ", " (String.append (str c) ")"))))).

(** Body of the loop (lines 585-586). *)
Definition colorscale_stop (cmap : colormap) (h : float) (k : Z)
           (pl_colorscale : list (float * string))
  : result (list (float * string)) :=
  let '(r, g, b) := first3 (cmap (Np.of_Z k * h)) in
  let C := map Np.uint8 [r * Fin 255; g * Fin 255; b * Fin 255] in
  C0 <- getitem C 0 ;;
  C1 <- getitem C 1 ;;
  C2 <- getitem C 2 ;;
  Ok (pl_colorscale ++
        [(Np.of_Z k * h, String.append "rgb" (str_tuple3 C0 C1 C2))]).

Definition matplotlib_to_plotly (cmap : colormap) (pl_entries : Z)
  : result (list (float * string)) :=
  h <- truediv (Fin 1) (pl_entries - 1) ;;
  for_each (range_Z pl_entries) (colorscale_stop cmap h) [].

(** The stop the loop appends for [k]. *)
Definition stop_at (cmap : colormap) (h : float) (k : Z) : float * string :=
  let '(r, g, b) := first3 (cmap (Np.of_Z k * h)) in
  (Np.of_Z k * h,
   String.append "rgb"
     (str_tuple3 (Np.uint8 (r * Fin 255)) (Np.uint8 (g * Fin 255))
        (Np.uint8 (b * Fin 255)))).

(* ------------------------------------------------------------------ *)
(** ** A colormap for concrete runs *)

(** The colormaps belong to the plotting library and are parameters of
    the functions above.  The concrete runs below use a listed colormap
    with the nine colours of the library's [Set1]: a float [x] selects
    the colour of index [floor(9 x)], values below 0 the first colour,
    values from 1 on the last one, [nan] the transparent colour. *)
Module Matplotlib.

Definition Set1_colors : list (Z * Z * Z) :=
  [ (228, 26, 28); (55, 126, 184); (77, 175, 74); (152, 78, 163);
    (255, 127, 0); (255, 255, 51); (166, 86, 40); (247, 129, 191);
    (153, 153, 153) ]%Z.

Definition color_at (colors : list (Z * Z * Z)) (i : nat) : rgba :=
  let '(r, g, b) := nth i colors (0, 0, 0)%Z in
  (Fin (Qred (r # 255)), Fin (Qred (g # 255)), Fin (Qred (b # 255)), Fin 1).

Definition listed (colors : list (Z * Z * Z)) : colormap := fun x =>
  let n := List.length colors in
  match x with
  | NaN => (Fin 0, Fin 0, Fin 0, Fin 0)
  | NInf => color_at colors 0
  | PInf => color_at colors (n - 1)
  | Fin q =>
      let xa := (q * inject_Z (Z.of_nat n))%Q in
      if Np.Qltb xa 0 then color_at colors 0
      else if Np.Qltb xa (inject_Z (Z.of_nat n))
           then color_at colors (Z.to_nat (Qfloor xa))
           else color_at colors (n - 1)
  end.

Definition Set1 : colormap := listed Set1_colors.

End Matplotlib.

(** The globals of a two-sample run: [digits.data.shape[0] = 2] and
    [y = digits.target = [0, 1]]. *)
Definition two_samples : Globals := mkGlobals (mkDigits 2 [0; 1]%Z) [0; 1]%Z.

(** Sample arrays. *)
Definition X_diag : list row := [(Fin 0, Fin 0); (Fin 1, Fin 1)].
Definition X_anti : list row := [(Fin 0, Fin 1); (Fin 1, Fin 0)].
Definition X_nan : list row := [(NaN, Fin 0); (Fin 0, Fin 1)].
Definition X_inf : list row := [(PInf, Fin 0); (Fin 0, Fin 1)].
Definition X_single : list row := [(Fin 5, Fin 7)].

(** The colour of an entry of the colormap's table, as an annotation
    carries it. *)
Definition palette_color (i : nat) : go.rgb_str :=
  go.rgb_of (first3 (Matplotlib.color_at Matplotlib.Set1_colors i)).

(* ------------------------------------------------------------------ *)
(** ** Further notions for the two functions *)

(** A float that is [nan] or lies in the unit interval. *)
Definition nan_or_unit (a : float) : Prop := a = NaN \/ in_unit a.

(** A row with a [nan] coordinate. *)
Definition has_nan (p : row) : Prop := fst p = NaN \/ snd p = NaN.

(** A run in which the second loop scans one row only:
    [digits.data.shape[0] = 1], while X has two rows, the first at the
    top of both columns. *)
Definition one_scanned : Globals := mkGlobals (mkDigits 1 [0; 1]%Z) [0; 1]%Z.
Definition X_top_first : list row := [(Fin 1, Fin 1); (Fin 0, Fin 0)].



(* ------------------------------------------------------------------ *)
(** ** The grid of digit images (lines 563-569) *)

(** A two-dimensional array, as the list of its rows. *)
Definition array2 : Type := list (list float).

(** [np.zeros((r, c))]. *)
Definition np_zeros (r c : nat) : array2 := repeat (repeat (Fin 0) c) r.

(** [a[r, c]], with 0 outside the array. *)
Definition get2 (a : array2) (r c : nat) : float :=
  nth c (nth r a []) (Fin 0).

(** The rows of [a.reshape((r, c))] once the size is known to fit. *)
Fixpoint chunks (r c : nat) (a : list float) : array2 :=
  match r with
  | O => []
  | S r' => firstn c a :: chunks r' c (skipn c a)
  end.

(** [a.reshape((r, c))] of a one-dimensional array: the size must be
    [r * c]. *)
Definition reshape (r c : nat) (a : list float) : result array2 :=
  if (List.length a =? r * c)%nat then Ok (chunks r c a)
  else Raise ValueError.

(** [row[lo:lo + len(vals)] = vals], the slice being inside the row. *)
Definition set_slice (row : list float) (lo : nat) (vals : list float)
  : list float :=
  firstn lo row ++ vals ++ skipn (lo + List.length vals) row.

Fixpoint map_rows_from (k : nat) (f : nat -> list float -> list float)
         (a : array2) : array2 :=
  match a with
  | [] => []
  | row :: a' => f k row :: map_rows_from (S k) f a'
  end.

(** [img[ix:ix + h, iy:iy + w] = block].  The slices are clipped to the
    array; the block, which has no dimension of size 1 here, must have
    the shape of the clipped region, otherwise numpy raises
    [ValueError]. *)
Definition setitem_block (img : array2) (ix h iy w : nat) (block : array2)
  : result array2 :=
  let rows := List.length img in
  let cols := List.length (hd [] img) in
  let region_rows := (Nat.min (ix + h) rows - Nat.min ix rows)%nat in
  let region_cols := (Nat.min (iy + w) cols - Nat.min iy cols)%nat in
  if ((region_rows =? List.length block)
      && (region_cols =? List.length (hd [] block)))%nat
  then Ok (map_rows_from 0
             (fun a row =>
                if ((ix <=? a) && (a <? ix + h))%nat
                then set_slice row iy (nth (a - ix) block [])
                else row)
             img)
  else Raise ValueError.

(** The cell that lays the first [n_img_per_row ** 2] samples of [X]
    out as 8 x 8 images on a grid with a margin of one pixel. *)
Definition img_grid (n_img_per_row : nat) (X : list (list float))
  : result array2 :=
  let img := np_zeros (10 * n_img_per_row) (10 * n_img_per_row) in
  for_each (range n_img_per_row)
    (fun i img =>
       let ix := (10 * i + 1)%nat in
       for_each (range n_img_per_row)
         (fun j img =>
            let iy := (10 * j + 1)%nat in
            Xk <- getitem X (i * n_img_per_row + j) ;;
            block <- reshape 8 8 Xk ;;
            setitem_block img ix 8 iy 8 block)
         img)
    img.

(** The tiles written before tile [(i0, j0)], in the order of the two
    loops. *)
Definition tile_before (i0 j0 i j : nat) : Prop :=
  (i < i0)%nat \/ (i = i0 /\ j < j0)%nat.

(** The state of [img] when the tiles before [(i0, j0)] are written. *)
Definition grid_state (n : nat) (X : list (list float)) (i0 j0 : nat)
           (img : array2) : Prop :=
  List.length img = (10 * n)%nat /\
  Forall (fun row => List.length row = (10 * n)%nat) img /\
  (forall i j r c,
      tile_before i0 j0 i j -> (j < n)%nat -> (r < 8)%nat -> (c < 8)%nat ->
      get2 img (10 * i + 1 + r) (10 * j + 1 + c) =
      nth (8 * r + c) (nth (i * n + j) X []) (Fin 0)) /\
  (forall a b,
      (forall i j r c,
          tile_before i0 j0 i j -> (j < n)%nat -> (r < 8)%nat -> (c < 8)%nat ->
          ~ (a = (10 * i + 1 + r)%nat /\ b = (10 * j + 1 + c)%nat)) ->
      get2 img a b = Fin 0).

(** A sample of 64 features, 0 to 63. *)
Definition sample_ramp : list float :=
  map (fun c => Fin (inject_Z (Z.of_nat c))) (seq 0 64).

(* ------------------------------------------------------------------ *)
(** ** Choosing the regularisation parameter (lines 140-151, 204) *)

(** Whether [x] replaces the running maximum [best] in [np.argmax]: a
    [nan] counts as the maximum and the first one wins. *)
Definition argmax_better (best x : float) : bool :=
  match best, x with
  | NaN, _ => false
  | _, NaN => true
  | _, _ => best <? x
  end.

Fixpoint argmax_from (best_i : nat) (best : float) (i : nat)
         (l : list float) : nat :=
  match l with
  | [] => best_i
  | x :: l' =>
      if argmax_better best x then argmax_from i x (S i) l'
      else argmax_from best_i best (S i) l'
  end.

(** [np.argmax] of a one-dimensional array: the index of the first
    occurrence of its maximum. *)
Definition np_argmax (l : list float) : result nat :=
  match l with
  | [] => Raise ValueError
  | a :: l' => Ok (argmax_from 0 a 1 l')
  end.

Section TrainTest.

(** The estimator belongs to the learning library: [score_train alpha]
    and [score_test alpha] stand for [enet.set_params(alpha=alpha)],
    [enet.fit(X_train, y_train)] followed by [enet.score] on the
    training and on the test data. *)
Variables score_train score_test : float -> float.

(** The loop that fills [train_errors] and [test_errors]. *)
Definition error_curves (alphas : list float) : list float * list float :=
  fold_left
    (fun errors alpha =>
       (fst errors ++ [score_train alpha], snd errors ++ [score_test alpha]))
    alphas ([], []).

(** [i_alpha_optim], [alpha_optim] and the coordinates [x], [y] of the
    trace [p3] that marks the optimum. *)
Definition optimum_marker (alphas : list float)
  : result (nat * float * (list float * list float)) :=
  let test_errors := snd (error_curves alphas) in
  i_alpha_optim <- np_argmax test_errors ;;
  alpha_optim <- getitem alphas i_alpha_optim ;;
  top <- Np.max test_errors ;;
  Ok (i_alpha_optim, alpha_optim, ([alpha_optim; alpha_optim], [Fin 0; top])).

End TrainTest.


(* ------------------------------------------------------------------ *)
(** ** Loops *)

Lemma bind_Ok_inv {A B : Type} (c : result A) (k : A -> result B) (b : B) :
  bind c k = Ok b -> exists a, c = Ok a /\ k a = Ok b.
Proof. destruct c as [a|e]; simpl; [eauto | discriminate]. Qed.

Lemma for_each_app {A S : Type} (xs ys : list A) (body : A -> S -> result S) (s : S) :
  for_each (xs ++ ys) body s = bind (for_each xs body s) (for_each ys body).
Proof.
  revert s; induction xs as [|x xs IH]; intros s; simpl.
  - reflexivity.
  - destruct (body x s) as [s'|e]; simpl; [apply IH | reflexivity].
Qed.

Lemma range_S (n : nat) : range (S n) = range n ++ [n].
Proof. unfold range. rewrite seq_S. reflexivity. Qed.

Lemma getitem_Ok {A : Type} (l : list A) (i : nat) (d : A) :
  (i < List.length l)%nat -> getitem l i = Ok (nth i l d).
Proof.
  intros H. unfold getitem. rewrite (nth_error_nth' l d H). reflexivity.
Qed.

Lemma getitem_Raise {A : Type} (l : list A) (i : nat) :
  (List.length l <= i)%nat -> getitem l i = Raise IndexError.
Proof.
  intros H. unfold getitem. apply nth_error_None in H. rewrite H. reflexivity.
Qed.

Lemma firstn_snoc {A : Type} (l : list A) (n : nat) (d : A) :
  (n < List.length l)%nat -> firstn (S n) l = firstn n l ++ [nth n l d].
Proof.
  revert n; induction l as [|a l IH]; intros n H; simpl in *.
  - lia.
  - destruct n as [|n]; simpl.
    + reflexivity.
    + f_equal. apply IH. lia.
Qed.

(* ------------------------------------------------------------------ *)
(** ** Rationals *)

Lemma Qltb_true (a b : Q) : Np.Qltb a b = true <-> a < b.
Proof.
  unfold Np.Qltb. rewrite Qlt_alt. destruct (a ?= b); split; congruence.
Qed.

Lemma Qltb_false (a b : Q) : Np.Qltb a b = false <-> b <= a.
Proof.
  split; intros H.
  - apply Qnot_lt_le. intros L. apply Qltb_true in L. congruence.
  - destruct (Np.Qltb a b) eqn:E; [|reflexivity].
    apply Qltb_true in E. apply Qle_not_lt in H. contradiction.
Qed.

Lemma Qzerob_true (a : Q) : Np.Qzerob a = true <-> a == 0.
Proof.
  unfold Np.Qzerob. rewrite Qeq_alt. destruct (a ?= 0); split; congruence.
Qed.

Lemma Qzerob_false (a : Q) : Np.Qzerob a = false <-> ~ a == 0.
Proof.
  rewrite <- Qzerob_true. destruct (Np.Qzerob a); split; congruence.
Qed.

Lemma Qsq_nonneg (x : Q) : 0 <= x * x.
Proof. nra. Qed.

Lemma Qred_zero (q : Q) : q == 0 -> Qred q = 0.
Proof. intros H. apply (Qred_complete q 0) in H. exact H. Qed.


(* ------------------------------------------------------------------ *)
(** ** Minimum and maximum of an array *)

Lemma fle_refl (a : float) : notnan a = true -> fle a a.
Proof. destruct a; simpl; intros; try easy. apply Qle_refl. Qed.

Lemma fle_trans (a b c : float) : fle a b -> fle b c -> fle a c.
Proof.
  destruct a, b, c; simpl; try easy. apply Qle_trans.
Qed.

Lemma minimum_cases (a b : float) :
  Np.minimum a b = a \/ Np.minimum a b = b.
Proof.
  unfold Np.minimum. destruct a, b; auto; destruct (Np.lt _ _); auto.
Qed.


Lemma minimum_notnan (a b : float) :
  notnan (Np.minimum a b) = notnan a && notnan b.
Proof.
  unfold Np.minimum. destruct a, b; simpl; try reflexivity;
    destruct (Np.Qltb _ _); reflexivity.
Qed.

Lemma maximum_notnan (a b : float) :
  notnan (Np.maximum a b) = notnan a && notnan b.
Proof.
  unfold Np.maximum. destruct a, b; simpl; try reflexivity;
    destruct (Np.Qltb _ _); reflexivity.
Qed.

Lemma minimum_le (a b : float) :
  notnan a = true -> notnan b = true ->
  fle (Np.minimum a b) a /\ fle (Np.minimum a b) b.
Proof.
  unfold Np.minimum.
  destruct a as [p| | |], b as [q| | |]; simpl; try easy; intros _ _;
    try (split; simpl; auto using Qle_refl; fail).
  destruct (Np.Qltb q p) eqn:E; simpl.
  - apply Qltb_true in E. split; [apply Qlt_le_weak; exact E | apply Qle_refl].
  - apply Qltb_false in E. split; [apply Qle_refl | exact E].
Qed.

Lemma maximum_ge (a b : float) :
  notnan a = true -> notnan b = true ->
  fle a (Np.maximum a b) /\ fle b (Np.maximum a b).
Proof.
  unfold Np.maximum.
  destruct a as [p| | |], b as [q| | |]; simpl; try easy; intros _ _;
    try (split; simpl; auto using Qle_refl; fail).
  destruct (Np.Qltb p q) eqn:E; simpl.
  - apply Qltb_true in E. split; [apply Qlt_le_weak; exact E | apply Qle_refl].
  - apply Qltb_false in E. split; [apply Qle_refl | exact E].
Qed.

Lemma fold_minimum_in (l : list float) (a : float) :
  In (fold_left Np.minimum l a) (a :: l).
Proof.
  revert a; induction l as [|b l IH]; intros a; simpl.
  - auto.
  - destruct (IH (Np.minimum a b)) as [H|H].
    + rewrite <- H. destruct (minimum_cases a b) as [E|E]; rewrite E; auto.
    + auto.
Qed.


Lemma fold_minimum_notnan (l : list float) (a : float) :
  notnan (fold_left Np.minimum l a) = notnan a && forallb notnan l.
Proof.
  revert a; induction l as [|b l IH]; intros a; simpl.
  - rewrite andb_true_r. reflexivity.
  - rewrite IH, minimum_notnan, andb_assoc. reflexivity.
Qed.

Lemma fold_maximum_notnan (l : list float) (a : float) :
  notnan (fold_left Np.maximum l a) = notnan a && forallb notnan l.
Proof.
  revert a; induction l as [|b l IH]; intros a; simpl.
  - rewrite andb_true_r. reflexivity.
  - rewrite IH, maximum_notnan, andb_assoc. reflexivity.
Qed.

Lemma fold_minimum_le (l : list float) (a : float) :
  notnan a = true -> forallb notnan l = true ->
  forall v, In v (a :: l) -> fle (fold_left Np.minimum l a) v.
Proof.
  revert a; induction l as [|b l IH]; intros a Ha Hl v Hv; simpl in *.
  - destruct Hv as [<-|[]]. apply fle_refl; exact Ha.
  - apply andb_true_iff in Hl. destruct Hl as [Hb Hl].
    destruct (minimum_le a b Ha Hb) as [L1 L2].
    assert (Hm : notnan (Np.minimum a b) = true)
      by (rewrite minimum_notnan, Ha, Hb; reflexivity).
    destruct Hv as [<-|[<-|Hv]].
    + eapply fle_trans; [apply (IH _ Hm Hl); left; reflexivity | exact L1].
    + eapply fle_trans; [apply (IH _ Hm Hl); left; reflexivity | exact L2].
    + apply (IH _ Hm Hl). right; exact Hv.
Qed.

Lemma fold_maximum_ge (l : list float) (a : float) :
  notnan a = true -> forallb notnan l = true ->
  forall v, In v (a :: l) -> fle v (fold_left Np.maximum l a).
Proof.
  revert a; induction l as [|b l IH]; intros a Ha Hl v Hv; simpl in *.
  - destruct Hv as [<-|[]]. apply fle_refl; exact Ha.
  - apply andb_true_iff in Hl. destruct Hl as [Hb Hl].
    destruct (maximum_ge a b Ha Hb) as [L1 L2].
    assert (Hm : notnan (Np.maximum a b) = true)
      by (rewrite maximum_notnan, Ha, Hb; reflexivity).
    destruct Hv as [<-|[<-|Hv]].
    + eapply fle_trans; [exact L1 | apply (IH _ Hm Hl); left; reflexivity].
    + eapply fle_trans; [exact L2 | apply (IH _ Hm Hl); left; reflexivity].
    + apply (IH _ Hm Hl). right; exact Hv.
Qed.

Lemma np_min_Ok (l : list float) : l <> [] -> Np.min l = Ok (min_of l).
Proof. destruct l; [congruence | reflexivity]. Qed.

Lemma np_max_Ok (l : list float) : l <> [] -> Np.max l = Ok (max_of l).
Proof. destruct l; [congruence | reflexivity]. Qed.

Lemma min_of_in (l : list float) : l <> [] -> In (min_of l) l.
Proof. destruct l; [congruence | intros _; apply fold_minimum_in]. Qed.


Lemma min_of_nan (l : list float) :
  forallb notnan l = false -> min_of l = NaN.
Proof.
  destruct l as [|a l]; simpl; [reflexivity|]. intros H.
  pose proof (fold_minimum_notnan l a) as E. rewrite H in E.
  destruct (fold_left Np.minimum l a); simpl in E; congruence.
Qed.

Lemma max_of_nan (l : list float) :
  forallb notnan l = false -> max_of l = NaN.
Proof.
  destruct l as [|a l]; simpl; [reflexivity|]. intros H.
  pose proof (fold_maximum_notnan l a) as E. rewrite H in E.
  destruct (fold_left Np.maximum l a); simpl in E; congruence.
Qed.

Lemma min_of_le (l : list float) (v : float) :
  forallb notnan l = true -> In v l -> fle (min_of l) v.
Proof.
  destruct l as [|a l]; simpl; [easy|]. intros H Hv.
  apply andb_true_iff in H. destruct H as [Ha Hl].
  apply fold_minimum_le; assumption.
Qed.

Lemma max_of_ge (l : list float) (v : float) :
  forallb notnan l = true -> In v l -> fle v (max_of l).
Proof.
  destruct l as [|a l]; simpl; [easy|]. intros H Hv.
  apply andb_true_iff in H. destruct H as [Ha Hl].
  apply fold_maximum_ge; assumption.
Qed.

(* ------------------------------------------------------------------ *)
(** ** Comparing a minimum with a bound *)

Ltac qbool :=
  repeat match goal with
  | H : Np.Qltb _ _ = true |- _ => apply Qltb_true in H
  | H : Np.Qltb _ _ = false |- _ => apply Qltb_false in H
  | H : Np.Qzerob _ = true |- _ => apply Qzerob_true in H
  | H : Np.Qzerob _ = false |- _ => apply Qzerob_false in H
  | |- context [Np.Qltb ?a ?b] => destruct (Np.Qltb a b) eqn:?
  | |- context [Np.Qzerob ?a] => destruct (Np.Qzerob a) eqn:?
  end.

Lemma lt_minimum (a b t : float) :
  notnan a = true -> notnan b = true ->
  (Np.minimum a b <? t) = (a <? t) || (b <? t).
Proof.
  unfold Np.minimum.
  destruct a as [p| | |], b as [q| | |], t as [r| | |]; simpl;
    try easy; intros _ _; qbool; simpl; qbool; try reflexivity;
    exfalso; lra.
Qed.

Lemma lt_fold_minimum (l : list float) (a t : float) :
  (fold_left Np.minimum l a <? t) =
  notnan a && forallb notnan l && ((a <? t) || existsb (fun d => d <? t) l).
Proof.
  revert a; induction l as [|b l IH]; intros a; simpl.
  - rewrite andb_true_r, orb_false_r. destruct a; reflexivity.
  - rewrite IH, minimum_notnan.
    destruct (notnan a) eqn:Ha, (notnan b) eqn:Hb; simpl; try reflexivity.
    rewrite (lt_minimum _ _ t Ha Hb), orb_assoc. reflexivity.
Qed.

(** [np.min(dist) < t] holds exactly when no entry of [dist] is [nan] and
    some entry is below [t]. *)
Lemma lt_min_of (l : list float) (t : float) :
  (min_of l <? t) = forallb notnan l && existsb (fun d => d <? t) l.
Proof.
  destruct l as [|a l]; simpl; [reflexivity|].
  rewrite lt_fold_minimum. reflexivity.
Qed.

(* ------------------------------------------------------------------ *)
(** ** The rescaling of one coordinate *)

Lemma rescale1_fin (a p b : Q) :
  a <= p -> p <= b -> a < b ->
  exists q, rescale1 (Fin p) (Fin a) (Fin b) = Fin q /\ 0 <= q /\ q <= 1.
Proof.
  intros H1 H2 H3. unfold rescale1, Np.sub, Np.div.
  assert (Hd : ~ Qred (b - a) == 0) by (rewrite Qred_correct; lra).
  apply Qzerob_false in Hd. rewrite Hd.
  eexists; split; [reflexivity|].
  rewrite !Qred_correct. split.
  - apply Qle_shift_div_l; lra.
  - apply Qle_shift_div_r; lra.
Qed.

Lemma rescale1_degenerate (a p b : Q) :
  a <= p -> p <= b -> a == b -> rescale1 (Fin p) (Fin a) (Fin b) = NaN.
Proof.
  intros H1 H2 H3. unfold rescale1, Np.sub, Np.div.
  assert (Hd : Qred (b - a) == 0) by (rewrite Qred_correct; lra).
  apply Qzerob_true in Hd. rewrite Hd.
  assert (Hn : Qred (p - a) == 0) by (rewrite Qred_correct; lra).
  apply Qeq_alt in Hn. rewrite Hn. reflexivity.
Qed.


Lemma div_zero_num (d : float) : Fin 0 / d = NaN \/ Fin 0 / d = Fin 0.
Proof.
  destruct d as [c| | |]; unfold Np.div; auto.
  destruct (Np.Qzerob c); auto.
Qed.

(** The row that attains the column minimum is sent to 0 or to [nan]. *)
Lemma rescale1_bottom (m mx : float) :
  rescale1 m m mx = NaN \/ rescale1 m m mx = Fin 0.
Proof.
  unfold rescale1. destruct m as [a| | |]; try (left; reflexivity).
  assert (E : Fin a - Fin a = Fin 0).
  { unfold Np.sub. f_equal. apply Qred_zero. lra. }
  rewrite E. apply div_zero_num.
Qed.

Lemma rescale1_nan_min (v mx : float) : rescale1 v NaN mx = NaN.
Proof. unfold rescale1. destruct v; reflexivity. Qed.

(** The three shapes of a rescaled coordinate between the column bounds. *)
Lemma rescale1_cases (v mn mx : float) :
  fle mn v -> fle v mx ->
  rescale1 v mn mx = NaN
  \/ (rescale1 v mn mx = Fin 0 /\ mx = PInf)
  \/ (exists a p b q, mn = Fin a /\ v = Fin p /\ mx = Fin b /\ a < b /\
        a <= p /\ p <= b /\ rescale1 v mn mx = Fin q /\ 0 <= q /\ q <= 1).
Proof.
  destruct mn as [a| | |], v as [p| | |], mx as [b| | |];
    simpl; try easy; intros H1 H2; auto.
  destruct (Qlt_le_dec a b) as [L|L].
  - right; right.
    destruct (rescale1_fin _ _ _ H1 H2 L) as (q & E & B1 & B2).
    exists a, p, b, q. repeat split; assumption.
  - left. apply rescale1_degenerate; try assumption. lra.
Qed.

(* ------------------------------------------------------------------ *)
(** ** The normalisation step *)

Lemma normalize_nil : normalize [] = Raise ValueError.
Proof. reflexivity. Qed.

Lemma normalize_Ok (X : list row) :
  X <> [] ->
  normalize X = Ok (map (rescale (x_min_of X) (x_max_of X)) X).
Proof.
  intros H. unfold normalize, np_min_axis0, np_max_axis0.
  assert (H0 : map fst X <> []) by (destruct X; simpl; congruence).
  assert (H1 : map snd X <> []) by (destruct X; simpl; congruence).
  rewrite !(np_min_Ok _ H0), !(np_min_Ok _ H1), !(np_max_Ok _ H0), !(np_max_Ok _ H1).
  reflexivity.
Qed.

Lemma normalize_inv (X X' : list row) :
  normalize X = Ok X' ->
  X <> [] /\ X' = map (rescale (x_min_of X) (x_max_of X)) X.
Proof.
  destruct X as [|r X].
  - rewrite normalize_nil. discriminate.
  - intros H. split; [congruence|].
    rewrite normalize_Ok in H by congruence. congruence.
Qed.

Lemma normalize_length (X X' : list row) :
  normalize X = Ok X' -> List.length X' = List.length X.
Proof.
  intros H. apply normalize_inv in H. destruct H as [_ ->].
  apply length_map.
Qed.

Lemma normalize_fst (X X' : list row) :
  normalize X = Ok X' -> map fst X' = normcol (map fst X).
Proof.
  intros H. apply normalize_inv in H. destruct H as [_ ->].
  unfold normcol. rewrite !map_map. reflexivity.
Qed.

Lemma normalize_snd (X X' : list row) :
  normalize X = Ok X' -> map snd X' = normcol (map snd X).
Proof.
  intros H. apply normalize_inv in H. destruct H as [_ ->].
  unfold normcol. rewrite !map_map. reflexivity.
Qed.

Lemma normcol_nan (col : list float) (e : float) :
  forallb notnan col = false -> In e (normcol col) -> e = NaN.
Proof.
  intros H He. unfold normcol in He. apply in_map_iff in He.
  destruct He as (v & <- & _). rewrite (min_of_nan _ H).
  apply rescale1_nan_min.
Qed.

Lemma normcol_between (col : list float) (v : float) :
  forallb notnan col = true -> In v col ->
  fle (min_of col) v /\ fle v (max_of col).
Proof.
  intros H Hv. split; [apply min_of_le | apply max_of_ge]; assumption.
Qed.

(** Every rescaled coordinate is [nan] or lies in the unit interval. *)
Lemma normcol_cases (col : list float) (e : float) :
  In e (normcol col) -> e = NaN \/ in_unit e.
Proof.
  intros He. destruct (forallb notnan col) eqn:H.
  - unfold normcol in He. apply in_map_iff in He. destruct He as (v & <- & Hv).
    destruct (normcol_between _ _ H Hv) as [L1 L2].
    destruct (rescale1_cases _ _ _ L1 L2) as [E|[[E _]|E]].
    + left; exact E.
    + right. exists 0. rewrite E. repeat split; lra.
    + right. destruct E as (a & p & b & q & _ & _ & _ & _ & _ & _ & E & B1 & B2).
      exists q. auto.
  - left. eapply normcol_nan; eassumption.
Qed.


(** A non-empty column always has an entry rescaled to 0 or to [nan]. *)
Lemma normcol_bottom (col : list float) :
  col <> [] -> exists e, In e (normcol col) /\ (e = NaN \/ e = Fin 0).
Proof.
  intros H. exists (rescale1 (min_of col) (min_of col) (max_of col)). split.
  - unfold normcol. apply in_map_iff. exists (min_of col).
    split; [reflexivity | apply min_of_in; exact H].
  - apply rescale1_bottom.
Qed.


(** A column of finite values whose bounds coincide is sent to [nan]. *)
Lemma normcol_constant (col : list float) (a b : Q) :
  min_of col = Fin a -> max_of col = Fin b -> a == b ->
  forall e, In e (normcol col) -> e = NaN.
Proof.
  intros Ha Hb Eab e He. destruct (forallb notnan col) eqn:H.
  2:{ eapply normcol_nan; eassumption. }
  unfold normcol in He. apply in_map_iff in He. destruct He as (v & <- & Hv).
  destruct (normcol_between _ _ H Hv) as [M1 M2].
  rewrite Ha in M1 |- *. rewrite Hb in M2 |- *.
  destruct v as [p| | |]; simpl in M1, M2; try contradiction.
  apply rescale1_degenerate; assumption.
Qed.

(* ------------------------------------------------------------------ *)
(** ** The two loops *)

Section Loops.

Variable Set1 : colormap.

Lemma annotate_Ok (g : Globals) (X : list row) (i : nat)
      (anno : list go.Annotation) :
  (i < List.length X)%nat -> (i < List.length (target (digits g)))%nat ->
  (i < List.length (y g))%nat ->
  annotate Set1 g X i anno = Ok (anno ++ [anno_at Set1 g X i]).
Proof.
  intros H1 H2 H3. unfold annotate, anno_at.
  rewrite (getitem_Ok X i (NaN, NaN) H1), (getitem_Ok _ i 0%Z H2),
    (getitem_Ok _ i 0%Z H3). reflexivity.
Qed.

Lemma annotate_Raise (g : Globals) (X : list row) (i : nat)
      (anno : list go.Annotation) :
  (List.length (target (digits g)) <= i)%nat \/ (List.length (y g) <= i)%nat ->
  annotate Set1 g X i anno = Raise IndexError.
Proof.
  intros H. unfold annotate.
  destruct (getitem X i) as [Xi|e] eqn:E1; simpl.
  2:{ unfold getitem in E1. destruct (nth_error X i); congruence. }
  destruct (Nat.le_gt_cases (List.length (target (digits g))) i) as [L|L].
  - rewrite (getitem_Raise _ i L). reflexivity.
  - rewrite (getitem_Ok _ i 0%Z L). simpl.
    destruct H as [H|H]; [lia|]. rewrite (getitem_Raise _ i H). reflexivity.
Qed.

(** The first loop: it succeeds exactly when both label vectors have an
    entry for every row. *)
Lemma anno_loop (g : Globals) (X : list row) (n : nat)
      (anno : list go.Annotation) :
  (n <= List.length X)%nat ->
  for_each (range n) (annotate Set1 g X) anno =
  if ((n <=? List.length (target (digits g))) && (n <=? List.length (y g)))%nat
  then Ok (anno ++ map (anno_at Set1 g X) (range n))
  else Raise IndexError.
Proof.
  induction n as [|n IH]; intros Hn.
  - simpl. rewrite app_nil_r. reflexivity.
  - rewrite range_S, for_each_app, IH by lia.
    destruct (Nat.leb_spec (S n) (List.length (target (digits g)))) as [L1|L1];
    destruct (Nat.leb_spec (S n) (List.length (y g))) as [L2|L2]; simpl.
    + replace (n <=? _)%nat with true by (symmetry; apply Nat.leb_le; lia).
      replace (n <=? _)%nat with true by (symmetry; apply Nat.leb_le; lia).
      simpl. rewrite annotate_Ok by lia.
      simpl. rewrite map_app, app_assoc. reflexivity.
    + destruct (_ && _)%bool; simpl; [|reflexivity].
      rewrite annotate_Raise by (right; lia). reflexivity.
    + destruct (_ && _)%bool; simpl; [|reflexivity].
      rewrite annotate_Raise by (left; lia). reflexivity.
    + destruct (_ && _)%bool; simpl; [|reflexivity].
      rewrite annotate_Raise by (left; lia). reflexivity.
Qed.

Lemma scan_step_nonempty (st : scan_state) (p : row) :
  shown_images st <> [] -> shown_images (scan_step st p) <> [].
Proof.
  intros H. unfold scan_step. destruct (too_close _ _); simpl; [exact H|].
  destruct (shown_images st); simpl; congruence.
Qed.

Lemma fold_scan_step_nonempty (rows : list row) (st : scan_state) :
  shown_images st <> [] -> shown_images (fold_left scan_step rows st) <> [].
Proof.
  revert st; induction rows as [|p rows IH]; intros st H; simpl.
  - exact H.
  - apply IH, scan_step_nonempty, H.
Qed.

Lemma scan_body_Ok (X : list row) (i : nat) (st : scan_state) :
  (i < List.length X)%nat -> shown_images st <> [] ->
  scan_body X i st = Ok (scan_step st (nth i X (NaN, NaN))).
Proof.
  intros Hi Hs. unfold scan_body, scan_step, too_close.
  rewrite (getitem_Ok X i (NaN, NaN) Hi). simpl.
  rewrite np_min_Ok by (destruct (shown_images st); simpl; congruence).
  simpl. destruct (_ <? _); reflexivity.
Qed.

(** The second loop: it reads [X[i]] for every [i < n], so it raises as
    soon as [n] exceeds the number of rows. *)
Lemma scan_loop (X : list row) (n : nat) (st : scan_state) :
  shown_images st <> [] ->
  for_each (range n) (scan_body X) st =
  if (n <=? List.length X)%nat
  then Ok (fold_left scan_step (firstn n X) st)
  else Raise IndexError.
Proof.
  intros Hs. induction n as [|n IH].
  - reflexivity.
  - rewrite range_S, for_each_app, IH.
    destruct (Nat.leb_spec (S n) (List.length X)) as [L|L].
    + replace (n <=? _)%nat with true by (symmetry; apply Nat.leb_le; lia).
      rewrite (firstn_snoc X n (NaN, NaN)) by lia.
      rewrite fold_left_app. cbn [bind for_each fold_left].
      rewrite scan_body_Ok by (auto using fold_scan_step_nonempty).
      reflexivity.
    + destruct (Nat.leb_spec n (List.length X)) as [L'|L']; simpl; [|reflexivity].
      unfold scan_body. rewrite getitem_Raise by lia. reflexivity.
Qed.

(** [plot_embedding] returns a figure exactly in the following case. *)
Lemma plot_embedding_Ok (g : Globals) (X : list row) (title : option string)
      (fig : go.Figure) :
  plot_embedding Set1 g X title = Ok fig <->
  exists X' xy,
    normalize X = Ok X' /\
    (List.length X <= List.length (target (digits g)))%nat /\
    (List.length X <= List.length (y g))%nat /\
    (data_shape0 (digits g) <= List.length X)%nat /\
    x_y_ (scan (firstn (data_shape0 (digits g)) X')) = Some xy /\
    fig = figure_of (map (anno_at Set1 g X') (range (List.length X))) title xy.
Proof.
  unfold plot_embedding. split.
  - intros H.
    apply bind_Ok_inv in H. destruct H as (X' & HX & H).
    pose proof (normalize_length _ _ HX) as HL.
    rewrite anno_loop in H by lia.
    rewrite scan_loop in H by (simpl; congruence).
    destruct (Nat.leb_spec (List.length X') (List.length (target (digits g))));
      [|discriminate H].
    destruct (Nat.leb_spec (List.length X') (List.length (y g)));
      [|discriminate H].
    simpl in H.
    destruct (Nat.leb_spec (data_shape0 (digits g)) (List.length X'));
      [|discriminate H].
    simpl in H.
    fold (scan (firstn (data_shape0 (digits g)) X')) in H.
    destruct (x_y_ (scan (firstn (data_shape0 (digits g)) X'))) as [xy|] eqn:E;
      [|discriminate H].
    simpl in H. injection H as <-.
    exists X', xy. rewrite <- HL. repeat split; try lia; assumption.
  - intros (X' & xy & HX & H1 & H2 & H3 & E & ->).
    pose proof (normalize_length _ _ HX) as HL.
    rewrite HX. simpl.
    rewrite anno_loop by lia.
    rewrite scan_loop by (simpl; congruence).
    replace (_ <=? List.length (target _))%nat with true
      by (symmetry; apply Nat.leb_le; lia).
    replace (_ <=? List.length (y g))%nat with true
      by (symmetry; apply Nat.leb_le; lia).
    simpl.
    replace (_ <=? List.length X')%nat with true
      by (symmetry; apply Nat.leb_le; lia).
    simpl. fold (scan (firstn (data_shape0 (digits g)) X')).
    rewrite E. simpl. rewrite HL. reflexivity.
Qed.

End Loops.

(* ------------------------------------------------------------------ *)
(** ** The de-duplication scan *)

Lemma negb_forallb_map {A : Type} (f : A -> float) (l : list A) :
  negb (forallb notnan (map f l)) = existsb (fun s => negb (notnan (f s))) l.
Proof.
  induction l as [|a l IH]; simpl; [reflexivity|].
  rewrite negb_andb, IH. reflexivity.
Qed.

Lemma negb_existsb_map {A : Type} (g : float -> bool) (f : A -> float)
      (l : list A) :
  negb (existsb g (map f l)) = forallb (fun s => negb (g (f s))) l.
Proof.
  induction l as [|a l IH]; simpl; [reflexivity|].
  rewrite negb_orb, IH. reflexivity.
Qed.

(** The loop's test [np.min(dist) < 4e-3], read as a condition on the
    individual distances. *)
Lemma keep_rule_spec (prev : list row) (p : row) :
  negb (too_close prev p) = keep_rule prev p.
Proof.
  unfold too_close, keep_rule.
  rewrite lt_min_of, negb_andb, negb_forallb_map, negb_existsb_map.
  reflexivity.
Qed.

Lemma scan_step_shown (st : scan_state) (p : row) :
  scan_step st p =
  if keep_rule (shown_images st) p
  then mkScan (shown_images st ++ [p])
         (Some (map fst (shown_images st ++ [p]), map snd (shown_images st ++ [p])))
  else st.
Proof.
  rewrite <- keep_rule_spec. unfold scan_step.
  destruct (too_close _ _); reflexivity.
Qed.

Lemma fold_scan_shown (rows : list row) (st : scan_state) :
  shown_images (fold_left scan_step rows st) =
  shown_images st ++ greedy keep_rule (shown_images st) rows.
Proof.
  revert st; induction rows as [|p rows IH]; intros st; simpl.
  - rewrite app_nil_r. reflexivity.
  - rewrite IH, scan_step_shown.
    destruct (keep_rule (shown_images st) p); simpl.
    + rewrite <- app_assoc. reflexivity.
    + reflexivity.
Qed.

Lemma fold_scan_xy (rows : list row) (st : scan_state) :
  x_y_ (fold_left scan_step rows st) =
  match greedy keep_rule (shown_images st) rows with
  | [] => x_y_ st
  | k => Some (map fst (shown_images st ++ k), map snd (shown_images st ++ k))
  end.
Proof.
  revert st; induction rows as [|p rows IH]; intros st; simpl.
  - reflexivity.
  - rewrite IH, scan_step_shown.
    destruct (keep_rule (shown_images st) p); simpl; [|reflexivity].
    destruct (greedy keep_rule (shown_images st ++ [p]) rows); simpl.
    + reflexivity.
    + rewrite <- !app_assoc. reflexivity.
Qed.

(** The array [shown_images] after the scan is the seed followed by the
    kept rows. *)
Lemma scan_shown (rows : list row) :
  shown_images (scan rows) = seed :: kept_rows rows.
Proof. unfold scan. rewrite fold_scan_shown. reflexivity. Qed.

(** The lists [x_], [y_] are bound once a row has been kept, and then
    hold the coordinates of the whole array, seed included. *)
Lemma scan_xy (rows : list row) :
  x_y_ (scan rows) =
  match kept_rows rows with
  | [] => None
  | k => Some (map fst (seed :: k), map snd (seed :: k))
  end.
Proof. unfold scan. rewrite fold_scan_xy. reflexivity. Qed.

Lemma greedy_subseq (keep : list row -> row -> bool) (rows prev : list row) :
  subseq (greedy keep prev rows) rows.
Proof.
  revert prev; induction rows as [|p rows IH]; intros prev; simpl.
  - constructor.
  - destruct (keep prev p); constructor; apply IH.
Qed.

Lemma subseq_In {A : Type} (l1 l2 : list A) (a : A) :
  subseq l1 l2 -> In a l1 -> In a l2.
Proof.
  induction 1; simpl; intros H'; auto.
  destruct H'; auto.
Qed.

Lemma greedy_app (keep : list row -> row -> bool) (l1 l2 prev : list row) :
  greedy keep prev (l1 ++ l2) =
  greedy keep prev l1 ++ greedy keep (prev ++ greedy keep prev l1) l2.
Proof.
  revert prev; induction l1 as [|p l1 IH]; intros prev; simpl.
  - rewrite app_nil_r. reflexivity.
  - destruct (keep prev p); simpl.
    + rewrite IH, <- app_assoc. reflexivity.
    + apply IH.
Qed.


(* ------------------------------------------------------------------ *)
(** ** Squared distances *)

Lemma sqdist_fin (a b c d : Q) :
  exists q, sqdist (Fin a, Fin b) (Fin c, Fin d) = Fin q /\
            q == (a - c) * (a - c) + (b - d) * (b - d).
Proof.
  eexists. split; [reflexivity|].
  rewrite !Qred_correct. reflexivity.
Qed.


(** A row rescaled to 0 or [nan] in its first coordinate is not near the
    seed. *)
Lemma far_from_seed (p : row) :
  fst p = NaN \/ fst p = Fin 0 -> near_seed p = false.
Proof.
  unfold near_seed, seed. destruct p as [u v]; simpl.
  intros [->| ->].
  - destruct v; reflexivity.
  - destruct v as [b| | |]; try reflexivity.
    destruct (sqdist_fin 0 b 1 1) as (q & E & Hq). rewrite E.
    unfold threshold, Np.lt. apply Qltb_false. rewrite Hq.
    pose proof (Qsq_nonneg (b - 1)) as Sb. lra.
Qed.

(* ------------------------------------------------------------------ *)
(** ** Rows near the seed, rows far from it *)




(** With the seed alone, a row is kept exactly when it is not near it. *)
Lemma keep_rule_seed (p : row) :
  near_seed p = false -> keep_rule [seed] p = true.
Proof.
  unfold near_seed, keep_rule. simpl. intros ->.
  rewrite orb_false_r, andb_true_r. apply orb_true_r.
Qed.

Lemma greedy_nonempty (rows k : list row) :
  (exists p, In p rows /\ near_seed p = false) ->
  k <> [] \/ greedy keep_rule (seed :: k) rows <> [].
Proof.
  revert k; induction rows as [|p0 rows IH]; intros k (p & Hp & Hf).
  - destruct Hp.
  - simpl. destruct (keep_rule (seed :: k) p0) eqn:K.
    + right. discriminate.
    + destruct Hp as [->|Hp].
      * destruct k as [|s k]; [|left; discriminate].
        rewrite (keep_rule_seed p Hf) in K. discriminate.
      * apply IH. exists p. auto.
Qed.

(** After the normalisation some row is not near the seed. *)
Lemma exists_far_row (X X' : list row) :
  normalize X = Ok X' -> exists p, In p X' /\ near_seed p = false.
Proof.
  intros H. pose proof (normalize_fst X X' H) as Hc.
  apply normalize_inv in H. destruct H as [Hne _].
  destruct (normcol_bottom (map fst X)) as (e & He & Hz).
  { destruct X; simpl; congruence. }
  rewrite <- Hc in He. apply in_map_iff in He. destruct He as (p & <- & Hp).
  exists p. split; [exact Hp | apply far_from_seed; exact Hz].
Qed.

(** So the scan of all the rows always keeps one. *)
Lemma some_row_kept (X X' : list row) :
  normalize X = Ok X' -> kept_rows X' <> [].
Proof.
  intros H. destruct (greedy_nonempty X' [] (exists_far_row X X' H)) as [E|E].
  - congruence.
  - exact E.
Qed.


Lemma firstn_In {A : Type} (n : nat) (l : list A) (a : A) :
  In a (firstn n l) -> In a l.
Proof.
  intros H. rewrite <- (firstn_skipn n l). apply in_or_app. left; exact H.
Qed.



(* ------------------------------------------------------------------ *)
(** ** The figure [plot_embedding] returns *)

Section Figure.

Variable Set1 : colormap.

Lemma plot_embedding_figure (g : Globals) (X : list row)
      (title : option string) (fig : go.Figure) :
  plot_embedding Set1 g X title = Ok fig ->
  exists X',
    normalize X = Ok X' /\
    (List.length X <= List.length (target (digits g)))%nat /\
    (List.length X <= List.length (y g))%nat /\
    (data_shape0 (digits g) <= List.length X)%nat /\
    kept_rows (firstn (data_shape0 (digits g)) X') <> [] /\
    fig = figure_of (map (anno_at Set1 g X') (range (List.length X))) title
            (trace_xy (firstn (data_shape0 (digits g)) X')).
Proof.
  intros H. apply plot_embedding_Ok in H.
  destruct H as (X' & xy & HX & H1 & H2 & H3 & E & ->).
  exists X'. rewrite scan_xy in E.
  destruct (kept_rows (firstn (data_shape0 (digits g)) X')) as [|k0 k] eqn:K;
    [discriminate E|].
  injection E as <-. unfold trace_xy. rewrite K.
  repeat split; try assumption. discriminate.
Qed.

Lemma plot_embedding_total (g : Globals) (X : list row)
      (title : option string) :
  X <> [] ->
  data_shape0 (digits g) = List.length X ->
  (List.length X <= List.length (target (digits g)))%nat ->
  (List.length X <= List.length (y g))%nat ->
  exists X',
    normalize X = Ok X' /\
    plot_embedding Set1 g X title =
    Ok (figure_of (map (anno_at Set1 g X') (range (List.length X))) title
          (trace_xy X')).
Proof.
  intros Hne Hs H1 H2.
  pose proof (normalize_Ok X Hne) as HX.
  set (X' := map (rescale (x_min_of X) (x_max_of X)) X) in *.
  exists X'. split; [exact HX|].
  apply plot_embedding_Ok. exists X', (trace_xy X').
  pose proof (normalize_length X X' HX) as HL.
  assert (F : firstn (data_shape0 (digits g)) X' = X')
    by (rewrite Hs, <- HL; apply firstn_all).
  rewrite F, scan_xy.
  pose proof (some_row_kept X X' HX) as K.
  destruct (kept_rows X') as [|k0 k] eqn:EK; [congruence|].
  unfold trace_xy. rewrite EK.
  repeat split; try assumption; try lia.
Qed.


End Figure.

Lemma greedy_all_kept (rows prev : list row) :
  ForallOrdPairs apart rows ->
  (forall p s, In p rows -> In s prev -> apart s p) ->
  greedy keep_rule prev rows = rows.
Proof.
  intros H. revert prev. induction H as [|a l Ha Hl IH]; intros prev Hp.
  - reflexivity.
  - simpl.
    assert (K : keep_rule prev a = true).
    { unfold keep_rule. apply orb_true_iff. right.
      apply forallb_forall. intros s Hs.
      rewrite (Hp a s (or_introl eq_refl) Hs). reflexivity. }
    rewrite K. f_equal. apply IH. intros p s Hpl Hs.
    apply in_app_or in Hs. destruct Hs as [Hs|[<-|[]]].
    + apply Hp; [right; exact Hpl | exact Hs].
    + rewrite Forall_forall in Ha. apply Ha. exact Hpl.
Qed.

Lemma nth_firstn_lt {A : Type} (l : list A) (n i : nat) (d : A) :
  (i < n)%nat -> nth i (firstn n l) d = nth i l d.
Proof.
  revert n i; induction l as [|a l IH]; intros n i H.
  - rewrite firstn_nil. reflexivity.
  - destruct n as [|n]; [lia|]. destruct i as [|i]; simpl.
    + reflexivity.
    + apply IH. lia.
Qed.



(* ------------------------------------------------------------------ *)
(** ** Normalisation: range and constant columns *)

Lemma np_min_axis0_inv (X : list row) (m : row) :
  np_min_axis0 X = Ok m -> X <> [] /\ m = x_min_of X.
Proof.
  destruct X as [|r X]; [discriminate|].
  intros H. split; [discriminate|].
  unfold np_min_axis0 in H. simpl in H. injection H as <-. reflexivity.
Qed.

Lemma np_max_axis0_inv (X : list row) (m : row) :
  np_max_axis0 X = Ok m -> X <> [] /\ m = x_max_of X.
Proof.
  destruct X as [|r X]; [discriminate|].
  intros H. split; [discriminate|].
  unfold np_max_axis0 in H. simpl in H. injection H as <-. reflexivity.
Qed.



Lemma in_fst_snd {A B : Type} (l : list (A * B)) (r : A * B) :
  In r l -> In (fst r) (map fst l) /\ In (snd r) (map snd l).
Proof. intros H. split; apply in_map; exact H. Qed.



(** C7 (as stated, refuted).  For the one-row array [[5, 7]] both
    columns are constant; the scaling step divides 0 by 0 and the
    coordinates it assigns are [nan], which is not a finite value. *)
Lemma C7_counterexample :
  np_min_axis0 X_single = Ok (Fin 5, Fin 7) /\
  np_max_axis0 X_single = Ok (Fin 5, Fin 7) /\
  normalize X_single = Ok [(NaN, NaN)] /\
  ~ Np.is_finite NaN.
Proof. repeat split. intros []. Qed.

(** C7 (amended).  The scaling step has no guard: when a column's
    maximum equals its minimum, the division is 0 / 0 and every
    coordinate of that column is [nan]; in particular a one-row array of
    finite values is normalised to [(nan, nan)]. *)
Theorem C7_constant_column_is_nan :
  (forall (X : list row) (x_min x_max : row),
      np_min_axis0 X = Ok x_min -> np_max_axis0 X = Ok x_max ->
      exists X',
        normalize X = Ok X' /\
        (forall a b, fst x_min = Fin a -> fst x_max = Fin b -> a == b ->
                     forall r, In r X' -> fst r = NaN) /\
        (forall a b, snd x_min = Fin a -> snd x_max = Fin b -> a == b ->
                     forall r, In r X' -> snd r = NaN)) /\
  (forall a b : Q, normalize [(Fin a, Fin b)] = Ok [(NaN, NaN)]).
Proof.
  split.
  - intros X x_min x_max Hmin Hmax.
    apply np_min_axis0_inv in Hmin. destruct Hmin as [Hne ->].
    apply np_max_axis0_inv in Hmax. destruct Hmax as [_ ->].
    pose proof (normalize_Ok X Hne) as HX.
    eexists. split; [exact HX|]. simpl. split.
    + intros a b Ea Eb E r Hr. apply in_fst_snd in Hr. destruct Hr as [R _].
      rewrite (normalize_fst X _ HX) in R.
      exact (normcol_constant _ a b Ea Eb E _ R).
    + intros a b Ea Eb E r Hr. apply in_fst_snd in Hr. destruct Hr as [_ R].
      rewrite (normalize_snd X _ HX) in R.
      exact (normcol_constant _ a b Ea Eb E _ R).
  - intros a b. rewrite normalize_Ok by discriminate.
    unfold x_min_of, x_max_of, rescale.
    cbn [map fst snd min_of max_of fold_left].
    change ((Fin a - Fin a) / (Fin a - Fin a))
      with (rescale1 (Fin a) (Fin a) (Fin a)).
    change ((Fin b - Fin b) / (Fin b - Fin b))
      with (rescale1 (Fin b) (Fin b) (Fin b)).
    rewrite !rescale1_degenerate by lra. reflexivity.
Qed.

Lemma C7_witness :
  np_min_axis0 X_single = Ok (Fin 5, Fin 7) /\
  np_max_axis0 X_single = Ok (Fin 5, Fin 7) /\
  exists X',
    normalize X_single = Ok X' /\
    (forall a b, Fin 5 = Fin a -> Fin 5 = Fin b -> a == b ->
                 forall r, In r X' -> fst r = NaN) /\
    (forall a b, Fin 7 = Fin a -> Fin 7 = Fin b -> a == b ->
                 forall r, In r X' -> snd r = NaN).
Proof.
  split; [reflexivity|]. split; [reflexivity|].
  exact (proj1 C7_constant_column_is_nan X_single (Fin 5, Fin 7) (Fin 5, Fin 7)
           eq_refl eq_refl).
Defined.

(* ------------------------------------------------------------------ *)
(** ** The marker trace *)

Lemma combine_fst_snd {A B : Type} (l : list (A * B)) :
  combine (map fst l) (map snd l) = l.
Proof.
  induction l as [|[a b] l IH]; simpl; [reflexivity|].
  rewrite IH. reflexivity.
Qed.

Lemma kept_rows_snoc (pre : list row) (p : row) :
  kept_rows (pre ++ [p]) =
  kept_rows pre ++ (if keep_rule (seed :: kept_rows pre) p then [p] else []).
Proof.
  unfold kept_rows. rewrite greedy_app. simpl.
  destruct (keep_rule _ p); reflexivity.
Qed.

(** C1 (as stated, refuted).  On [[0, 0], [1, 1]], which the
    normalisation leaves unchanged, a scan that starts from an empty
    kept set keeps both rows, (0, 0) then (1, 1).  The code starts from
    the seed (1, 1): row 1 is at distance 0 from it and is skipped, and
    the markers are the seed followed by row 0. *)
Lemma C1_counterexample :
  normalize X_diag = Ok X_diag /\
  dedup_claimed X_diag = [(Fin 0, Fin 0); (Fin 1, Fin 1)] /\
  exists fig tr,
    plot_embedding Matplotlib.Set1 two_samples X_diag None = Ok fig /\
    go.data fig = [tr] /\
    markers tr = [(Fin 1, Fin 1); (Fin 0, Fin 0)].
Proof.
  split; [reflexivity|]. split; [reflexivity|].
  eexists. eexists. split; [reflexivity|]. split; reflexivity.
Qed.

(** C1 (amended).  The scan visits the first [digits.data.shape[0]] rows
    of the normalised array in their original order, starting from the
    array that holds the seed point (1, 1).  A row is appended exactly
    when none of its squared distances to the seed and to the rows
    appended before it is below 4e-3 (or one of these distances is
    [nan]); the markers are the seed followed by the kept rows in
    first-seen order. *)
Theorem C1_dedup_from_seed (Set1 : colormap) (g : Globals) (X : list row)
        (title : option string) (fig : go.Figure) :
  plot_embedding Set1 g X title = Ok fig ->
  exists X' tr,
    normalize X = Ok X' /\ go.data fig = [tr] /\
    go.xs tr = map fst (seed :: kept_rows (firstn (data_shape0 (digits g)) X')) /\
    go.ys tr = map snd (seed :: kept_rows (firstn (data_shape0 (digits g)) X')) /\
    subseq (kept_rows (firstn (data_shape0 (digits g)) X'))
           (firstn (data_shape0 (digits g)) X') /\
    forall pre p post,
      firstn (data_shape0 (digits g)) X' = pre ++ p :: post ->
      kept_rows (pre ++ [p]) =
      kept_rows pre ++
      (if keep_rule (seed :: kept_rows pre) p then [p] else []).
Proof.
  intros H. apply plot_embedding_figure in H.
  destruct H as (X' & HX & _ & _ & _ & _ & ->).
  exists X'. eexists. split; [exact HX|]. split; [reflexivity|].
  split; [reflexivity|]. split; [reflexivity|].
  split; [apply greedy_subseq|].
  intros pre p post _. apply kept_rows_snoc.
Qed.

Lemma C1_witness :
  exists fig,
    plot_embedding Matplotlib.Set1 two_samples X_diag None = Ok fig /\
    exists X' tr,
      normalize X_diag = Ok X' /\ go.data fig = [tr] /\
      go.xs tr = map fst (seed :: kept_rows (firstn 2 X')) /\
      go.ys tr = map snd (seed :: kept_rows (firstn 2 X')) /\
      subseq (kept_rows (firstn 2 X')) (firstn 2 X') /\
      forall pre p post,
        firstn 2 X' = pre ++ p :: post ->
        kept_rows (pre ++ [p]) =
        kept_rows pre ++
        (if keep_rule (seed :: kept_rows pre) p then [p] else []).
Proof.
  eexists. split; [reflexivity|].
  exact (C1_dedup_from_seed Matplotlib.Set1 two_samples X_diag None _ eq_refl).
Defined.

(** C4 (as stated, refuted).  In [[0, 1], [1, 0]] and in
    [[0, 0], [1, 1]] no two rows are within the threshold of each other
    and the normalisation changes nothing.  For the first array the
    markers are (1, 1), (0, 1), (1, 0): the seed (1, 1) is a marker but
    not an input point.  For the second, row 1 coincides with the seed
    and is not kept: the kept rows are [(0, 0)] only and the markers
    are the seed and row 0. *)
Lemma C4_counterexample :
  (ForallOrdPairs apart X_anti /\ normalize X_anti = Ok X_anti /\
   exists fig tr,
     plot_embedding Matplotlib.Set1 two_samples X_anti None = Ok fig /\
     go.data fig = [tr] /\
     markers tr = [(Fin 1, Fin 1); (Fin 0, Fin 1); (Fin 1, Fin 0)] /\
     ~ In (Fin 1, Fin 1) X_anti) /\
  (ForallOrdPairs apart X_diag /\ normalize X_diag = Ok X_diag /\
   kept_rows X_diag = [(Fin 0, Fin 0)] /\
   exists fig tr,
     plot_embedding Matplotlib.Set1 two_samples X_diag None = Ok fig /\
     go.data fig = [tr] /\
     markers tr = [(Fin 1, Fin 1); (Fin 0, Fin 0)]).
Proof.
  split.
  - split; [repeat constructor|]. split; [reflexivity|].
    eexists. eexists. split; [reflexivity|]. split; [reflexivity|].
    split; [reflexivity|].
    intros [H|[H|[]]]; discriminate H.
  - split; [repeat constructor|]. split; [reflexivity|].
    split; [reflexivity|].
    eexists. eexists. split; [reflexivity|]. split; reflexivity.
Qed.

(** C4 (amended).  When all the rows are scanned, no two rows of the
    normalised array are within the threshold of each other and no row
    is within the threshold of the seed (1, 1), every row is kept: the
    markers are the seed followed by all the rows in order.  For
    X = [[0, 0], [1, 1]] with labels [0, 1] the normalisation leaves X
    unchanged and two annotations are emitted; row 0 is kept, and the
    markers are the seed (1, 1) and row 0. *)
Theorem C4_all_rows_kept :
  (forall (Set1 : colormap) (g : Globals) (X X' : list row)
          (title : option string),
      normalize X = Ok X' ->
      data_shape0 (digits g) = List.length X ->
      (List.length X <= List.length (target (digits g)))%nat ->
      (List.length X <= List.length (y g))%nat ->
      ForallOrdPairs apart X' ->
      Forall (fun p => near_seed p = false) X' ->
      kept_rows X' = X' /\
      exists fig tr,
        plot_embedding Set1 g X title = Ok fig /\ go.data fig = [tr] /\
        go.xs tr = map fst (seed :: X') /\ go.ys tr = map snd (seed :: X')) /\
  (forall (Set1 : colormap) (title : option string),
      normalize X_diag = Ok X_diag /\
      kept_rows X_diag = [(Fin 0, Fin 0)] /\
      exists fig tr,
        plot_embedding Set1 two_samples X_diag title = Ok fig /\
        List.length (go.annotations (go.layout fig)) = 2%nat /\
        go.data fig = [tr] /\
        go.xs tr = [Fin 1; Fin 0] /\ go.ys tr = [Fin 1; Fin 0]).
Proof.
  split.
  - intros Set1 g X X' title HX Hs H1 H2 Hp Hn.
    assert (K : kept_rows X' = X').
    { apply greedy_all_kept; [exact Hp|].
      intros p s Hpi [<-|[]]. rewrite Forall_forall in Hn.
      exact (Hn p Hpi). }
    split; [exact K|].
    destruct (normalize_inv X X' HX) as [Hne _].
    destruct (plot_embedding_total Set1 g X title Hne Hs H1 H2) as (X'' & HX' & E).
    assert (X'' = X') by congruence. subst X''.
    eexists. eexists. split; [exact E|].
    unfold trace_xy. rewrite K. repeat split.
  - intros Set1 title. split; [reflexivity|]. split; [reflexivity|].
    eexists. eexists. split; [reflexivity|]. repeat split.
Qed.

Lemma C4_witness :
  normalize X_anti = Ok X_anti /\
  ForallOrdPairs apart X_anti /\
  Forall (fun p => near_seed p = false) X_anti /\
  kept_rows X_anti = X_anti /\
  exists fig tr,
    plot_embedding Matplotlib.Set1 two_samples X_anti None = Ok fig /\
    go.data fig = [tr] /\
    go.xs tr = map fst (seed :: X_anti) /\ go.ys tr = map snd (seed :: X_anti).
Proof.
  assert (H1 : normalize X_anti = Ok X_anti) by reflexivity.
  assert (H2 : ForallOrdPairs apart X_anti) by (repeat constructor).
  assert (H3 : Forall (fun p => near_seed p = false) X_anti)
    by (repeat constructor).
  split; [exact H1|]. split; [exact H2|]. split; [exact H3|].
  refine (proj1 C4_all_rows_kept Matplotlib.Set1 two_samples X_anti X_anti None
            H1 eq_refl _ _ H2 H3); simpl; lia.
Defined.

(** C5 (as stated, refuted).  For [[0, 1], [1, 0]] the trace has three
    markers, (1, 1), (0, 1) and (1, 0), although the array has two
    rows: whatever rows are taken as kept, the markers are not exactly
    those rows, because the seed (1, 1) is plotted with them. *)
Lemma C5_counterexample :
  normalize X_anti = Ok X_anti /\
  exists fig tr,
    plot_embedding Matplotlib.Set1 two_samples X_anti None = Ok fig /\
    go.data fig = [tr] /\
    markers tr = [(Fin 1, Fin 1); (Fin 0, Fin 1); (Fin 1, Fin 0)] /\
    forall k, subseq k X_anti -> markers tr <> k.
Proof.
  split; [reflexivity|].
  eexists. eexists. split; [reflexivity|]. split; [reflexivity|].
  split; [reflexivity|].
  intros k Hk E.
  assert (H : In (Fin 1, Fin 1) X_anti).
  { apply (subseq_In k X_anti _ Hk). rewrite <- E. left. reflexivity. }
  destruct H as [H|[H|[]]]; discriminate H.
Qed.

(** C5 (amended).  For every array of N >= 1 rows, with
    [digits.data.shape[0] = N] and at least N labels in [digits.target]
    and [y], the figure holds exactly N annotations, whatever the scan
    keeps, and a single trace in marker mode with the legend disabled
    whose markers are the seed (1, 1) followed by exactly the kept rows,
    in order; both axes have ticks, tick labels, grid lines and
    zero-line disabled. *)
Theorem C5_figure_contents (Set1 : colormap) (g : Globals) (X : list row)
        (title : option string) :
  X <> [] ->
  data_shape0 (digits g) = List.length X ->
  (List.length X <= List.length (target (digits g)))%nat ->
  (List.length X <= List.length (y g))%nat ->
  exists fig X' tr,
    plot_embedding Set1 g X title = Ok fig /\
    normalize X = Ok X' /\
    List.length (go.annotations (go.layout fig)) = List.length X /\
    go.data fig = [tr] /\
    go.showlegend tr = false /\ go.mode tr = "markers"%string /\
    go.xs tr = map fst (seed :: kept_rows X') /\
    go.ys tr = map snd (seed :: kept_rows X') /\
    subseq (kept_rows X') X' /\
    go.xaxis (go.layout fig) = go.mkAxis "" false false false /\
    go.yaxis (go.layout fig) = go.mkAxis "" false false false.
Proof.
  intros Hne Hs H1 H2.
  destruct (plot_embedding_total Set1 g X title Hne Hs H1 H2) as (X' & HX & E).
  eexists. exists X'. eexists. split; [exact E|]. split; [exact HX|].
  split.
  { simpl. rewrite length_map. unfold range. apply length_seq. }
  split; [reflexivity|].
  repeat split. apply greedy_subseq.
Qed.

Lemma C5_witness :
  X_anti <> [] /\
  exists fig X' tr,
    plot_embedding Matplotlib.Set1 two_samples X_anti None = Ok fig /\
    normalize X_anti = Ok X' /\
    List.length (go.annotations (go.layout fig)) = List.length X_anti /\
    go.data fig = [tr] /\
    go.showlegend tr = false /\ go.mode tr = "markers"%string /\
    go.xs tr = map fst (seed :: kept_rows X') /\
    go.ys tr = map snd (seed :: kept_rows X') /\
    subseq (kept_rows X') X' /\
    go.xaxis (go.layout fig) = go.mkAxis "" false false false /\
    go.yaxis (go.layout fig) = go.mkAxis "" false false false.
Proof.
  assert (H : X_anti <> []) by discriminate.
  split; [exact H|].
  refine (C5_figure_contents Matplotlib.Set1 two_samples X_anti None
            H eq_refl _ _); simpl; lia.
Defined.

(* ------------------------------------------------------------------ *)
(** ** The seed *)





(* ------------------------------------------------------------------ *)
(** ** Inputs that are not validated *)




(* ------------------------------------------------------------------ *)
(** ** What the figure depends on *)





(* ------------------------------------------------------------------ *)
(** ** Annotations *)

(** C8 (as stated, refuted).  With labels [0, 1] and the nine-colour
    colormap, the two annotations carry the same colour, the first
    entry of the table: the colormap is evaluated at label / 10, that
    is at 0.0 and 0.1, which both select entry 0.  Indexing the table
    by the label modulo its size would give label 1 the second entry,
    a different colour. *)
Lemma C8_counterexample :
  (exists fig,
      plot_embedding Matplotlib.Set1 two_samples X_diag None = Ok fig /\
      map (fun a => go.color (go.font a)) (go.annotations (go.layout fig)) =
      [palette_color 0; palette_color 0]) /\
  palette_color (Z.to_nat (1 mod 9)) <> palette_color 0.
Proof.
  split.
  - eexists. split; reflexivity.
  - intros H. vm_compute in H. discriminate H.
Qed.

(** C8 (amended).  For every row i the figure has an annotation at the
    row's normalised coordinate, with the arrow disabled and font size
    11; its text is [str(digits.target[i])], read from the global
    [digits], and its colour is made of the first three components of
    the colormap [Set1] evaluated at [y[i] / 10.], [y] being the global
    label vector; no modulo is taken. *)
Theorem C8_annotation_of_each_row (Set1 : colormap) (g : Globals)
        (X : list row) (title : option string) (fig : go.Figure) :
  plot_embedding Set1 g X title = Ok fig ->
  exists X',
    normalize X = Ok X' /\
    List.length (go.annotations (go.layout fig)) = List.length X /\
    forall i, (i < List.length X)%nat ->
      exists p t l,
        nth_error X' i = Some p /\
        nth_error (target (digits g)) i = Some t /\
        nth_error (y g) i = Some l /\
        nth_error (go.annotations (go.layout fig)) i =
        Some (go.mkAnnotation (fst p) (snd p) (str t) false
                (go.mkFont 11
                   (go.rgb_of (first3 (Set1 (Np.of_Z l / Fin 10)))))).
Proof.
  intros H. apply plot_embedding_figure in H.
  destruct H as (X' & HX & H1 & H2 & _ & _ & ->).
  pose proof (normalize_length X X' HX) as HL.
  exists X'. split; [exact HX|]. split.
  { simpl. rewrite length_map. unfold range. apply length_seq. }
  intros i Hi.
  exists (nth i X' (NaN, NaN)), (nth i (target (digits g)) 0%Z),
    (nth i (y g) 0%Z).
  split; [apply nth_error_nth'; lia|].
  split; [apply nth_error_nth'; lia|].
  split; [apply nth_error_nth'; lia|].
  simpl. rewrite nth_error_map. unfold range.
  rewrite (nth_error_nth' (seq 0 (List.length X)) 0%nat)
    by (rewrite length_seq; exact Hi).
  rewrite seq_nth by exact Hi. reflexivity.
Qed.

Lemma C8_witness :
  exists fig,
    plot_embedding Matplotlib.Set1 two_samples X_diag None = Ok fig /\
    exists X',
      normalize X_diag = Ok X' /\
      List.length (go.annotations (go.layout fig)) = List.length X_diag /\
      forall i, (i < List.length X_diag)%nat ->
        exists p t l,
          nth_error X' i = Some p /\
          nth_error (target (digits two_samples)) i = Some t /\
          nth_error (y two_samples) i = Some l /\
          nth_error (go.annotations (go.layout fig)) i =
          Some (go.mkAnnotation (fst p) (snd p) (str t) false
                  (go.mkFont 11
                     (go.rgb_of
                        (first3 (Matplotlib.Set1 (Np.of_Z l / Fin 10)))))).
Proof.
  eexists. split; [reflexivity|].
  exact (C8_annotation_of_each_row Matplotlib.Set1 two_samples X_diag None _
           eq_refl).
Defined.

(* ------------------------------------------------------------------ *)
(** ** The colour scale *)

Lemma colorscale_stop_Ok (cmap : colormap) (h : float) (k : Z)
      (acc : list (float * string)) :
  colorscale_stop cmap h k acc = Ok (acc ++ [stop_at cmap h k]).
Proof.
  unfold colorscale_stop, stop_at.
  destruct (first3 (cmap (Np.of_Z k * h))) as [[r g] b]. reflexivity.
Qed.

Lemma colorscale_loop (cmap : colormap) (h : float) (ks : list Z)
      (acc : list (float * string)) :
  for_each ks (colorscale_stop cmap h) acc =
  Ok (acc ++ map (stop_at cmap h) ks).
Proof.
  revert acc; induction ks as [|k ks IH]; intros acc; simpl.
  - rewrite app_nil_r. reflexivity.
  - rewrite colorscale_stop_Ok. simpl. rewrite IH, <- app_assoc. reflexivity.
Qed.

Lemma stop_at_position (cmap : colormap) (h : float) (k : Z) :
  fst (stop_at cmap h k) = Np.of_Z k * h.
Proof.
  unfold stop_at. destruct (first3 _) as [[r g] b]. reflexivity.
Qed.

Lemma nth_error_range_Z (n k : Z) :
  (0 <= k < n)%Z -> nth_error (range_Z n) (Z.to_nat k) = Some k.
Proof.
  intros H. unfold range_Z. rewrite nth_error_map.
  rewrite (nth_error_nth' (seq 0 (Z.to_nat n)) 0%nat)
    by (rewrite length_seq; lia).
  rewrite seq_nth by lia. simpl. f_equal. lia.
Qed.

(** [k * h] for [h = 1.0 / (n - 1)]. *)
Lemma step_position (n k : Z) :
  (2 <= n)%Z ->
  Np.of_Z k * (Fin 1 / Np.of_Z (n - 1)) =
  Fin (Qred (inject_Z k / inject_Z (n - 1))).
Proof.
  intros H. unfold Np.of_Z, Np.div, Np.mul.
  assert (Hz : ~ inject_Z (n - 1) == 0).
  { unfold Qeq. simpl. lia. }
  pose proof Hz as Hb. apply Qzerob_false in Hb. rewrite Hb.
  f_equal. apply Qred_complete. rewrite Qred_correct. field. exact Hz.
Qed.



(* ------------------------------------------------------------------ *)
(** ** Outcomes of [plot_embedding] *)

Lemma keep_rule_seed_only (p : row) :
  keep_rule [seed] p = negb (near_seed p).
Proof.
  unfold keep_rule, near_seed. simpl.
  rewrite orb_false_r, andb_true_r.
  destruct (sqdist p seed) as [q| | |]; simpl; try reflexivity.
Qed.

Lemma kept_rows_nil_iff (rows : list row) :
  kept_rows rows = [] <-> Forall (fun p => near_seed p = true) rows.
Proof.
  unfold kept_rows. induction rows as [|p rows IH]; simpl.
  - split; [constructor | reflexivity].
  - rewrite keep_rule_seed_only. destruct (near_seed p) eqn:E; simpl.
    + rewrite IH. split.
      * intros H. constructor; assumption.
      * intros H. inversion H; assumption.
    + split; [discriminate|]. intros H. inversion H; congruence.
Qed.

Section Outcome.

Variable Set1 : colormap.

(** The result of [plot_embedding] once the subscripts are known to be
    in range. *)
Lemma plot_embedding_eval (g : Globals) (X : list row)
      (title : option string) :
  X <> [] ->
  (List.length X <= List.length (target (digits g)))%nat ->
  (List.length X <= List.length (y g))%nat ->
  (data_shape0 (digits g) <= List.length X)%nat ->
  exists X',
    normalize X = Ok X' /\
    plot_embedding Set1 g X title =
    match kept_rows (firstn (data_shape0 (digits g)) X') with
    | [] => Raise UnboundLocalError
    | _ => Ok (figure_of (map (anno_at Set1 g X') (range (List.length X)))
                 title (trace_xy (firstn (data_shape0 (digits g)) X')))
    end.
Proof.
  intros Hne H1 H2 H3.
  pose proof (normalize_Ok X Hne) as HX.
  set (X' := map (rescale (x_min_of X) (x_max_of X)) X) in *.
  exists X'. split; [exact HX|].
  pose proof (normalize_length X X' HX) as HL.
  unfold plot_embedding. rewrite HX. cbn [bind].
  rewrite anno_loop by lia.
  rewrite scan_loop by (simpl; congruence).
  replace (_ <=? List.length (target _))%nat with true
    by (symmetry; apply Nat.leb_le; lia).
  replace (_ <=? List.length (y g))%nat with true
    by (symmetry; apply Nat.leb_le; lia).
  cbn [andb bind].
  replace (_ <=? List.length X')%nat with true
    by (symmetry; apply Nat.leb_le; lia).
  cbn [bind app]. fold (scan (firstn (data_shape0 (digits g)) X')).
  rewrite scan_xy. unfold trace_xy.
  destruct (kept_rows (firstn (data_shape0 (digits g)) X')); cbn [bind].
  - reflexivity.
  - rewrite HL. reflexivity.
Qed.

End Outcome.

(** When the subscripts are in range, [plot_embedding] raises
    [UnboundLocalError] if every scanned row is within the threshold of
    the seed, in particular if [digits.data.shape[0]] is 0, and returns
    a figure otherwise. *)
Theorem plot_embedding_unbound_or_figure (Set1 : colormap) (g : Globals)
        (X : list row) (title : option string) :
  X <> [] ->
  (List.length X <= List.length (target (digits g)))%nat ->
  (List.length X <= List.length (y g))%nat ->
  (data_shape0 (digits g) <= List.length X)%nat ->
  exists X',
    normalize X = Ok X' /\
    (Forall (fun p => near_seed p = true)
            (firstn (data_shape0 (digits g)) X') ->
     plot_embedding Set1 g X title = Raise UnboundLocalError) /\
    (Exists (fun p => near_seed p = false)
            (firstn (data_shape0 (digits g)) X') ->
     exists fig, plot_embedding Set1 g X title = Ok fig) /\
    (data_shape0 (digits g) = 0%nat ->
     plot_embedding Set1 g X title = Raise UnboundLocalError).
Proof.
  intros Hne H1 H2 H3.
  destruct (plot_embedding_eval Set1 g X title Hne H1 H2 H3) as (X' & HX & E).
  exists X'. split; [exact HX|].
  assert (A : Forall (fun p => near_seed p = true)
                (firstn (data_shape0 (digits g)) X') ->
              plot_embedding Set1 g X title = Raise UnboundLocalError).
  { intros H. apply kept_rows_nil_iff in H. rewrite E, H. reflexivity. }
  split; [exact A|]. split.
  - intros H.
    destruct (kept_rows (firstn (data_shape0 (digits g)) X')) eqn:K.
    + apply kept_rows_nil_iff in K. apply Exists_exists in H.
      destruct H as (p & Hp & Hf). rewrite Forall_forall in K.
      rewrite (K p Hp) in Hf. discriminate.
    + eexists. exact E.
  - intros Z. apply A. rewrite Z. constructor.
Qed.

Lemma plot_embedding_unbound_or_figure_witness :
  X_top_first <> [] /\
  exists X',
    normalize X_top_first = Ok X' /\
    (Forall (fun p => near_seed p = true) (firstn 1 X') ->
     plot_embedding Matplotlib.Set1 one_scanned X_top_first None =
     Raise UnboundLocalError) /\
    (Exists (fun p => near_seed p = false) (firstn 1 X') ->
     exists fig,
       plot_embedding Matplotlib.Set1 one_scanned X_top_first None = Ok fig) /\
    (1%nat = 0%nat ->
     plot_embedding Matplotlib.Set1 one_scanned X_top_first None =
     Raise UnboundLocalError).
Proof.
  assert (H : X_top_first <> []) by discriminate.
  split; [exact H|].
  refine (plot_embedding_unbound_or_figure Matplotlib.Set1 one_scanned
            X_top_first None H _ _ _); simpl; lia.
Defined.

(* ------------------------------------------------------------------ *)
(** ** Invariants of the scan *)




(** Every scanned row is kept or is within the threshold of a point
    the scan holds. *)
Lemma greedy_covers (rows prev : list row) (p : row) :
  In p rows ->
  In p (greedy keep_rule prev rows) \/
  exists s, In s (prev ++ greedy keep_rule prev rows) /\
            (sqdist p s <? threshold) = true.
Proof.
  revert prev; induction rows as [|p0 rows IH]; intros prev Hp; simpl.
  - destruct Hp.
  - destruct Hp as [->|Hp].
    + destruct (keep_rule prev p) eqn:K.
      * left. left. reflexivity.
      * right. rewrite <- keep_rule_spec in K. apply negb_false_iff in K.
        unfold too_close in K. rewrite lt_min_of in K.
        apply andb_true_iff in K. destruct K as [_ K].
        apply existsb_exists in K. destruct K as (d & Hd & L).
        apply in_map_iff in Hd. destruct Hd as (s & <- & Hs).
        exists s. split; [|exact L]. apply in_or_app. left. exact Hs.
    + destruct (keep_rule prev p0) eqn:K.
      * destruct (IH (prev ++ [p0]) Hp) as [H|(s & Hs & L)].
        -- left. right. exact H.
        -- right. exists s. split; [|exact L].
           rewrite <- app_assoc in Hs. exact Hs.
      * apply IH. exact Hp.
Qed.

Lemma sqdist_nan_l (p s : row) : has_nan p -> sqdist p s = NaN.
Proof.
  destruct p as [u v], s as [a b]. unfold has_nan, sqdist. simpl.
  intros [->| ->].
  - destruct a; reflexivity.
  - destruct (u - a) as [q| | |], b as [q'| | |]; try reflexivity;
      simpl; destruct (Qcompare _ _); reflexivity.
Qed.

Lemma sqdist_nan_r (p s : row) : has_nan s -> sqdist p s = NaN.
Proof.
  destruct p as [u v], s as [a b]. unfold has_nan, sqdist. simpl.
  intros [->| ->].
  - destruct u; reflexivity.
  - destruct (u - a) as [q| | |], v as [q'| | |]; try reflexivity;
      simpl; destruct (Qcompare _ _); reflexivity.
Qed.

Lemma keep_rule_nan_dist (prev : list row) (p s : row) :
  In s prev -> sqdist p s = NaN -> keep_rule prev p = true.
Proof.
  intros Hs E. unfold keep_rule. apply orb_true_iff. left.
  apply existsb_exists. exists s. split; [exact Hs|]. rewrite E. reflexivity.
Qed.

(** Once the scan holds a point with a [nan] coordinate it keeps every
    later row. *)
Lemma greedy_poisoned (rows prev : list row) (s : row) :
  In s prev -> has_nan s -> greedy keep_rule prev rows = rows.
Proof.
  revert prev; induction rows as [|p rows IH]; intros prev Hs Hn; simpl.
  - reflexivity.
  - rewrite (keep_rule_nan_dist prev p s Hs (sqdist_nan_r p s Hn)).
    f_equal. apply IH; [apply in_or_app; left; exact Hs | exact Hn].
Qed.

Lemma figure_markers (anno : list go.Annotation) (title : option string)
      (rows : list row) :
  exists tr,
    go.data (figure_of anno title (trace_xy rows)) = [tr] /\
    markers tr = seed :: kept_rows rows.
Proof.
  eexists. split; [reflexivity|].
  unfold markers, trace_xy. cbn [go.xs go.ys fst snd].
  apply combine_fst_snd.
Qed.







(** Whatever the input, a scanned row is either one of the markers or
    within the threshold (squared distance below 4e-3) of a marker: the
    trace leaves no scanned row uncovered. *)
Theorem scanned_rows_covered (Set1 : colormap) (g : Globals)
        (X : list row) (title : option string) (fig : go.Figure) :
  plot_embedding Set1 g X title = Ok fig ->
  exists X' tr,
    normalize X = Ok X' /\ go.data fig = [tr] /\
    forall i p,
      (i < data_shape0 (digits g))%nat -> nth_error X' i = Some p ->
      In p (markers tr) \/
      exists s, In s (markers tr) /\ (sqdist p s <? threshold) = true.
Proof.
  intros H. apply plot_embedding_figure in H.
  destruct H as (X' & HX & _ & _ & _ & _ & ->).
  destruct (figure_markers (map (anno_at Set1 g X') (range (List.length X)))
              title (firstn (data_shape0 (digits g)) X')) as (tr & Et & Em).
  exists X', tr. split; [exact HX|]. split; [exact Et|].
  intros i p Hi Hp. rewrite Em.
  assert (Hin : In p (firstn (data_shape0 (digits g)) X')).
  { apply (nth_error_In _ i). rewrite nth_error_firstn.
    destruct (Nat.ltb_spec i (data_shape0 (digits g))); [exact Hp | lia]. }
  destruct (greedy_covers _ [seed] p Hin) as [K|(s & Hs & L)].
  - left. right. exact K.
  - right. exists s. split; [exact Hs | exact L].
Qed.

Lemma scanned_rows_covered_witness :
  exists fig,
    plot_embedding Matplotlib.Set1 two_samples X_diag None = Ok fig /\
    exists X' tr,
      normalize X_diag = Ok X' /\ go.data fig = [tr] /\
      forall i p,
        (i < 2)%nat -> nth_error X' i = Some p ->
        In p (markers tr) \/
        exists s, In s (markers tr) /\ (sqdist p s <? threshold) = true.
Proof.
  eexists. split; [reflexivity|].
  exact (scanned_rows_covered Matplotlib.Set1 two_samples X_diag None _ eq_refl).
Defined.

Lemma normcol_all_nan (col : list float) (e : float) :
  In NaN col -> In e (normcol col) -> e = NaN.
Proof.
  intros Hn He. apply (normcol_nan col e); [|exact He].
  destruct (forallb notnan col) eqn:E; [|reflexivity].
  rewrite forallb_forall in E. specialize (E NaN Hn). discriminate.
Qed.

(** [nan] switches the filter off.  A scanned row with a [nan]
    coordinate is kept, and so is every row scanned after it, however
    close to earlier markers; when a column of the input contains
    [nan], the markers are the seed followed by all the scanned rows. *)
Theorem nan_disables_filter (Set1 : colormap) (g : Globals)
        (X : list row) (title : option string) (fig : go.Figure) :
  plot_embedding Set1 g X title = Ok fig ->
  exists X' tr,
    normalize X = Ok X' /\ go.data fig = [tr] /\
    (forall pre p post,
        firstn (data_shape0 (digits g)) X' = pre ++ p :: post ->
        has_nan p ->
        markers tr = seed :: kept_rows pre ++ p :: post) /\
    (In NaN (map fst X) \/ In NaN (map snd X) ->
     markers tr = seed :: firstn (data_shape0 (digits g)) X').
Proof.
  intros H. apply plot_embedding_figure in H.
  destruct H as (X' & HX & _ & _ & _ & _ & ->).
  destruct (figure_markers (map (anno_at Set1 g X') (range (List.length X)))
              title (firstn (data_shape0 (digits g)) X')) as (tr & Et & Em).
  exists X', tr. split; [exact HX|]. split; [exact Et|]. rewrite Em.
  assert (P : forall pre p post,
             firstn (data_shape0 (digits g)) X' = pre ++ p :: post ->
             has_nan p ->
             kept_rows (firstn (data_shape0 (digits g)) X') =
             kept_rows pre ++ p :: post).
  { intros pre p post E Hn. rewrite E. unfold kept_rows.
    rewrite greedy_app. f_equal. cbn [greedy].
    assert (Hs : In seed ([seed] ++ greedy keep_rule [seed] pre))
      by (left; reflexivity).
    rewrite (keep_rule_nan_dist _ p seed Hs (sqdist_nan_l p seed Hn)).
    f_equal. apply (greedy_poisoned post _ p); [|exact Hn].
    apply in_or_app. right. left. reflexivity. }
  split.
  - intros pre p post E Hn. rewrite (P pre p post E Hn). reflexivity.
  - intros Hc. f_equal.
    destruct (firstn (data_shape0 (digits g)) X') as [|p post] eqn:E.
    + reflexivity.
    + rewrite (P [] p post eq_refl).
      * reflexivity.
      * assert (Hp : In p X').
        { apply (firstn_In (data_shape0 (digits g))). rewrite E. left.
          reflexivity. }
        apply in_fst_snd in Hp. destruct Hp as [P0 P1].
        rewrite (normalize_fst X X' HX) in P0.
        rewrite (normalize_snd X X' HX) in P1.
        destruct Hc as [Hc|Hc].
        -- left. exact (normcol_all_nan _ _ Hc P0).
        -- right. exact (normcol_all_nan _ _ Hc P1).
Qed.

Lemma nan_disables_filter_witness :
  exists fig,
    plot_embedding Matplotlib.Set1 two_samples X_nan None = Ok fig /\
    exists X' tr,
      normalize X_nan = Ok X' /\ go.data fig = [tr] /\
      (forall pre p post,
          firstn 2 X' = pre ++ p :: post -> has_nan p ->
          markers tr = seed :: kept_rows pre ++ p :: post) /\
      (In NaN (map fst X_nan) \/ In NaN (map snd X_nan) ->
       markers tr = seed :: firstn 2 X').
Proof.
  eexists. split; [reflexivity|].
  exact (nan_disables_filter Matplotlib.Set1 two_samples X_nan None _ eq_refl).
Defined.

Lemma normalized_nan_or_unit (X X' : list row) (r : row) :
  normalize X = Ok X' -> In r X' ->
  nan_or_unit (fst r) /\ nan_or_unit (snd r).
Proof.
  intros HX Hr. apply in_fst_snd in Hr. destruct Hr as [R0 R1].
  rewrite (normalize_fst X X' HX) in R0.
  rewrite (normalize_snd X X' HX) in R1.
  split; apply normcol_cases with (1 := R0) || apply normcol_cases with (1 := R1).
Qed.

(** Whatever the input, infinities included, every coordinate of the
    figure, of an annotation or of a marker, is [nan] or lies in
    [0, 1]: the normalisation never yields an infinity or a value
    outside the unit interval. *)
Theorem coordinates_nan_or_unit (Set1 : colormap) (g : Globals)
        (X : list row) (title : option string) (fig : go.Figure) :
  plot_embedding Set1 g X title = Ok fig ->
  Forall (fun a => nan_or_unit (go.x a) /\ nan_or_unit (go.y a))
         (go.annotations (go.layout fig)) /\
  exists tr,
    go.data fig = [tr] /\
    Forall nan_or_unit (go.xs tr) /\ Forall nan_or_unit (go.ys tr).
Proof.
  intros H. apply plot_embedding_figure in H.
  destruct H as (X' & HX & _ & _ & _ & _ & ->).
  pose proof (normalize_length X X' HX) as HL.
  assert (U1 : nan_or_unit (Fin 1)).
  { right. exists 1. repeat split; lra. }
  assert (K : forall r, In r (kept_rows (firstn (data_shape0 (digits g)) X')) ->
                        In r X').
  { intros r Hr. apply (firstn_In (data_shape0 (digits g))).
    eapply subseq_In; [apply greedy_subseq | exact Hr]. }
  split.
  - simpl. apply Forall_forall. intros a Ha. apply in_map_iff in Ha.
    destruct Ha as (i & <- & Hi). unfold range in Hi. apply in_seq in Hi.
    unfold anno_at. simpl.
    apply (normalized_nan_or_unit X X'); [exact HX|].
    apply nth_In. lia.
  - eexists. split; [reflexivity|]. unfold trace_xy. simpl. split.
    + constructor; [exact U1|]. apply Forall_forall. intros v Hv.
      apply in_map_iff in Hv. destruct Hv as (r & <- & Hr).
      exact (proj1 (normalized_nan_or_unit X X' r HX (K r Hr))).
    + constructor; [exact U1|]. apply Forall_forall. intros v Hv.
      apply in_map_iff in Hv. destruct Hv as (r & <- & Hr).
      exact (proj2 (normalized_nan_or_unit X X' r HX (K r Hr))).
Qed.

Lemma coordinates_nan_or_unit_witness :
  exists fig,
    plot_embedding Matplotlib.Set1 two_samples X_inf None = Ok fig /\
    Forall (fun a => nan_or_unit (go.x a) /\ nan_or_unit (go.y a))
           (go.annotations (go.layout fig)) /\
    exists tr,
      go.data fig = [tr] /\
      Forall nan_or_unit (go.xs tr) /\ Forall nan_or_unit (go.ys tr).
Proof.
  eexists. split; [reflexivity|].
  exact (coordinates_nan_or_unit Matplotlib.Set1 two_samples X_inf None _
           eq_refl).
Defined.

(* ------------------------------------------------------------------ *)
(** ** Normalising twice *)










(* ------------------------------------------------------------------ *)
(** ** More on the colour scale *)

Lemma matplotlib_to_plotly_eval (cmap : colormap) (n : Z) :
  n <> 1%Z ->
  matplotlib_to_plotly cmap n =
  Ok (map (stop_at cmap (Fin 1 / Np.of_Z (n - 1))) (range_Z n)).
Proof.
  intros H. unfold matplotlib_to_plotly, truediv.
  destruct (Z.eqb_spec (n - 1) 0) as [E|_]; [lia|]. cbn [bind].
  rewrite colorscale_loop. reflexivity.
Qed.



Lemma nth_error_stops (cmap : colormap) (n : Z) (i : nat)
      (s : float * string) :
  (2 <= n)%Z ->
  nth_error (map (stop_at cmap (Fin 1 / Np.of_Z (n - 1))) (range_Z n)) i
  = Some s ->
  (Z.of_nat i < n)%Z /\
  s = stop_at cmap (Fin 1 / Np.of_Z (n - 1)) (Z.of_nat i) /\
  fst s = Fin (Qred (inject_Z (Z.of_nat i) / inject_Z (n - 1))).
Proof.
  intros Hn H.
  assert (Hi : (i < Z.to_nat n)%nat).
  { assert (L : Nat.lt i (List.length
                    (map (stop_at cmap (Fin 1 / Np.of_Z (n - 1))) (range_Z n))))
      by (apply nth_error_Some; rewrite H; discriminate).
    unfold range_Z in L. rewrite !length_map, length_seq in L. exact L. }
  assert (Hi' : (Z.of_nat i < n)%Z) by lia.
  split; [exact Hi'|].
  rewrite nth_error_map in H.
  replace i with (Z.to_nat (Z.of_nat i)) in H at 1 by lia.
  rewrite nth_error_range_Z in H by lia. simpl in H. injection H as <-.
  split; [reflexivity|].
  rewrite stop_at_position. apply step_position. exact Hn.
Qed.

(** For [pl_entries >= 2] the positions of the stops are strictly
    increasing along the list and all lie in [0, 1]. *)
Theorem colorscale_positions_increasing (cmap : colormap) (pl_entries : Z) :
  (2 <= pl_entries)%Z ->
  exists stops,
    matplotlib_to_plotly cmap pl_entries = Ok stops /\
    Forall (fun s => in_unit (fst s)) stops /\
    forall i j si sj,
      nth_error stops i = Some si -> nth_error stops j = Some sj ->
      (i < j)%nat -> (fst si <? fst sj) = true.
Proof.
  intros Hn. eexists. split; [apply matplotlib_to_plotly_eval; lia|].
  assert (Hd : 0 < inject_Z (pl_entries - 1)).
  { unfold Qlt. simpl. lia. }
  split.
  - apply Forall_forall. intros s Hs. apply In_nth_error in Hs.
    destruct Hs as (i & Hi).
    destruct (nth_error_stops cmap pl_entries i s Hn Hi) as (Li & _ & E).
    exists (Qred (inject_Z (Z.of_nat i) / inject_Z (pl_entries - 1))).
    split; [exact E|]. rewrite Qred_correct. split.
    + apply Qle_shift_div_l; [exact Hd|].
      rewrite Qmult_0_l. unfold Qle. simpl. lia.
    + apply Qle_shift_div_r; [exact Hd|].
      rewrite Qmult_1_l. unfold Qle. simpl. lia.
  - intros i j si sj Hi Hj Lij.
    destruct (nth_error_stops cmap pl_entries i si Hn Hi) as (_ & _ & ->).
    destruct (nth_error_stops cmap pl_entries j sj Hn Hj) as (_ & _ & ->).
    unfold Np.lt. apply Qltb_true. rewrite !Qred_correct.
    apply Qmult_lt_compat_r.
    + apply Qinv_lt_0_compat. exact Hd.
    + unfold Qlt. simpl. lia.
Qed.

Lemma colorscale_positions_increasing_witness :
  (2 <= 5)%Z /\
  exists stops,
    matplotlib_to_plotly Matplotlib.Set1 5 = Ok stops /\
    Forall (fun s => in_unit (fst s)) stops /\
    forall i j si sj,
      nth_error stops i = Some si -> nth_error stops j = Some sj ->
      (i < j)%nat -> (fst si <? fst sj) = true.
Proof.
  assert (H : (2 <= 5)%Z) by lia.
  split; [exact H|].
  exact (colorscale_positions_increasing Matplotlib.Set1 5 H).
Defined.





(* ------------------------------------------------------------------ *)
(** ** The grid of digit images *)

Lemma set_slice_length (row : list float) (lo : nat) (vals : list float) :
  (lo + List.length vals <= List.length row)%nat ->
  List.length (set_slice row lo vals) = List.length row.
Proof.
  intros H. unfold set_slice.
  rewrite !length_app, length_firstn, length_skipn. lia.
Qed.

Lemma set_slice_nth (row : list float) (lo : nat) (vals : list float)
      (b : nat) (d : float) :
  (lo + List.length vals <= List.length row)%nat ->
  nth b (set_slice row lo vals) d =
  if ((lo <=? b) && (b <? lo + List.length vals))%nat
  then nth (b - lo) vals d else nth b row d.
Proof.
  intros H. unfold set_slice.
  assert (Lf : List.length (firstn lo row) = lo)
    by (rewrite length_firstn; lia).
  destruct (Nat.leb_spec lo b) as [L1|L1]; simpl.
  - rewrite app_nth2 by lia. rewrite Lf.
    destruct (Nat.ltb_spec b (lo + List.length vals)) as [L2|L2].
    + rewrite app_nth1 by lia. reflexivity.
    + rewrite app_nth2 by lia. rewrite nth_skipn. f_equal. lia.
  - rewrite app_nth1 by lia. rewrite nth_firstn.
    destruct (Nat.ltb_spec b lo); [reflexivity | lia].
Qed.

Lemma map_rows_from_length (f : nat -> list float -> list float)
      (a : array2) (k : nat) :
  List.length (map_rows_from k f a) = List.length a.
Proof.
  revert k; induction a as [|row a IH]; intros k; simpl; [reflexivity|].
  rewrite IH. reflexivity.
Qed.

Lemma map_rows_from_nth (f : nat -> list float -> list float)
      (a : array2) (k i : nat) :
  (i < List.length a)%nat ->
  nth i (map_rows_from k f a) [] = f (k + i)%nat (nth i a []).
Proof.
  revert k i; induction a as [|row a IH]; intros k i H; simpl in *.
  - lia.
  - destruct i as [|i].
    + rewrite Nat.add_0_r. reflexivity.
    + rewrite IH by lia. f_equal. lia.
Qed.

Lemma map_rows_from_Forall (P : list float -> Prop)
      (f : nat -> list float -> list float) (a : array2) (k : nat) :
  (forall i row, P row -> P (f i row)) ->
  Forall P a -> Forall P (map_rows_from k f a).
Proof.
  intros Hf H. revert k. induction H as [|row a Hr Ha IH]; intros k; simpl.
  - constructor.
  - constructor; [apply Hf; exact Hr | apply IH].
Qed.

Lemma chunks_length (r c : nat) (a : list float) :
  List.length (chunks r c a) = r.
Proof.
  revert a; induction r as [|r IH]; intros a; simpl; [reflexivity|].
  rewrite IH. reflexivity.
Qed.

Lemma chunks_row (r c : nat) (a : list float) (i : nat) :
  List.length a = (r * c)%nat -> (i < r)%nat ->
  List.length (nth i (chunks r c a) []) = c /\
  forall j d, (j < c)%nat ->
    nth j (nth i (chunks r c a) []) d = nth (c * i + j) a d.
Proof.
  revert a i; induction r as [|r IH]; intros a i Ha Hi; [lia|].
  simpl in Ha. destruct i as [|i]; simpl.
  - split.
    + rewrite length_firstn. lia.
    + intros j d Hj. rewrite nth_firstn.
      destruct (Nat.ltb_spec j c); [|lia]. f_equal. lia.
  - assert (Hs : List.length (skipn c a) = (r * c)%nat)
      by (rewrite length_skipn; lia).
    destruct (IH (skipn c a) i Hs) as [L N]; [lia|].
    split; [exact L|].
    intros j d Hj. rewrite (N j d Hj), nth_skipn. f_equal. lia.
Qed.

Lemma hd_nth {A : Type} (l : list A) (d : A) : hd d l = nth 0 l d.
Proof. destruct l; reflexivity. Qed.

(** A block assignment inside the array: the shape is kept, the cells
    of the region take the block's values, the others are unchanged. *)
Lemma setitem_block_inside (img block : array2) (R C ix iy : nat) :
  List.length img = R -> Forall (fun row => List.length row = C) img ->
  (ix + 8 <= R)%nat -> (iy + 8 <= C)%nat ->
  List.length block = 8%nat ->
  (forall r, (r < 8)%nat -> List.length (nth r block []) = 8%nat) ->
  exists img',
    setitem_block img ix 8 iy 8 block = Ok img' /\
    List.length img' = R /\
    Forall (fun row => List.length row = C) img' /\
    forall a b,
      get2 img' a b =
      if ((ix <=? a) && (a <? ix + 8) && (iy <=? b) && (b <? iy + 8))%nat
      then nth (b - iy) (nth (a - ix) block []) (Fin 0)
      else get2 img a b.
Proof.
  intros HR HC Hx Hy Hb Hbr.
  assert (Hrow : forall a, (a < R)%nat -> List.length (nth a img []) = C).
  { intros a Ha. rewrite Forall_forall in HC. apply HC, nth_In. lia. }
  unfold setitem_block.
  rewrite HR, Hb, (hd_nth img), (Hrow 0%nat) by lia.
  rewrite (hd_nth block), (Hbr 0%nat) by lia.
  replace (Nat.min (ix + 8) R - Nat.min ix R)%nat with 8%nat by lia.
  replace (Nat.min (iy + 8) C - Nat.min iy C)%nat with 8%nat by lia.
  cbn [Nat.eqb andb]. eexists. split; [reflexivity|].
  split; [rewrite map_rows_from_length; exact HR|].
  split.
  - rewrite Forall_forall. intros row Hr.
    apply (In_nth _ _ []) in Hr. destruct Hr as (a & Ha & <-).
    rewrite map_rows_from_length in Ha.
    rewrite map_rows_from_nth by exact Ha. cbn [Nat.add].
    destruct ((ix <=? a) && (a <? ix + 8))%nat eqn:E.
    + rewrite set_slice_length; [apply Hrow; lia|].
      apply andb_true_iff in E. destruct E as [E1 E2].
      apply Nat.leb_le in E1. apply Nat.ltb_lt in E2.
      rewrite Hbr by lia. rewrite Hrow by lia. lia.
    + apply Hrow. lia.
  - intros a b. unfold get2.
    destruct (Nat.lt_ge_cases a R) as [Ha|Ha].
    + rewrite map_rows_from_nth by lia. cbn [Nat.add].
      destruct ((ix <=? a) && (a <? ix + 8))%nat eqn:E; cbn [andb].
      * apply andb_true_iff in E. destruct E as [E1 E2].
        apply Nat.leb_le in E1. apply Nat.ltb_lt in E2.
        rewrite set_slice_nth by (rewrite Hbr, Hrow by lia; lia).
        rewrite Hbr by lia. rewrite andb_comm.
        destruct (iy <=? b)%nat, (b <? iy + 8)%nat; reflexivity.
      * reflexivity.
    + rewrite (nth_overflow (map_rows_from _ _ _))
        by (rewrite map_rows_from_length; lia).
      rewrite (nth_overflow img) by lia.
      destruct ((ix <=? a) && (a <? ix + 8))%nat eqn:E; cbn [andb].
      * apply andb_true_iff in E. destruct E as [E1 E2].
        apply Nat.leb_le in E1. apply Nat.ltb_lt in E2. lia.
      * reflexivity.
Qed.

Lemma grid_state_init (n : nat) (X : list (list float)) :
  grid_state n X 0 0 (np_zeros (10 * n) (10 * n)).
Proof.
  unfold grid_state, np_zeros. split; [apply repeat_length|]. split.
  - apply Forall_forall. intros row Hr. apply repeat_spec in Hr. subst.
    apply repeat_length.
  - split.
    + intros i j r c [H|[_ H]]; lia.
    + intros a b _. unfold get2.
      destruct (Nat.lt_ge_cases a (10 * n)) as [Ha|Ha].
      * rewrite nth_repeat_lt by exact Ha.
        destruct (Nat.lt_ge_cases b (10 * n)) as [Hb|Hb].
        -- apply nth_repeat_lt. exact Hb.
        -- apply nth_overflow. rewrite repeat_length. exact Hb.
      * rewrite (nth_overflow (repeat (repeat (Fin 0) (10 * n)) (10 * n)) [])
          by (rewrite repeat_length; exact Ha).
        destruct b; reflexivity.
Qed.

(** One pass of the inner loop's body. *)
Lemma grid_step (n : nat) (X : list (list float)) (i0 j0 : nat)
      (img : array2) (Xk : list float) :
  grid_state n X i0 j0 img -> (i0 < n)%nat -> (j0 < n)%nat ->
  nth_error X (i0 * n + j0) = Some Xk -> List.length Xk = 64%nat ->
  exists img',
    (Xk' <- getitem X (i0 * n + j0) ;;
     block <- reshape 8 8 Xk' ;;
     setitem_block img (10 * i0 + 1) 8 (10 * j0 + 1) 8 block) = Ok img' /\
    grid_state n X i0 (S j0) img'.
Proof.
  intros (HR & HC & Hin & Hout) Hi Hj HX HL.
  unfold getitem. rewrite HX. cbn [bind].
  unfold reshape. rewrite HL. cbn [Nat.mul Nat.add Nat.eqb bind].
  destruct (setitem_block_inside img (chunks 8 8 Xk) (10 * n) (10 * n)
              (10 * i0 + 1) (10 * j0 + 1) HR HC)
    as (img' & E & HR' & HC' & G); try lia.
  { apply chunks_length. }
  { intros r Hr. apply (chunks_row 8 8 Xk r); [exact HL | exact Hr]. }
  exists img'. split; [exact E|].
  split; [exact HR'|]. split; [exact HC'|]. split.
  - intros i j r c Hb Hjn Hr Hc. rewrite G.
    destruct ((10 * i0 + 1 <=? 10 * i + 1 + r) && (10 * i + 1 + r <? 10 * i0 + 1 + 8)
              && (10 * j0 + 1 <=? 10 * j + 1 + c)
              && (10 * j + 1 + c <? 10 * j0 + 1 + 8))%nat eqn:B.
    + repeat (apply andb_true_iff in B; destruct B as [B ?]).
      apply Nat.leb_le in B. 
      repeat match goal with
             | H : (_ <=? _)%nat = true |- _ => apply Nat.leb_le in H
             | H : (_ <? _)%nat = true |- _ => apply Nat.ltb_lt in H
             end.
      assert (i = i0) by lia. assert (j = j0) by lia. subst i j.
      replace (10 * i0 + 1 + r - (10 * i0 + 1))%nat with r by lia.
      replace (10 * j0 + 1 + c - (10 * j0 + 1))%nat with c by lia.
      destruct (chunks_row 8 8 Xk r HL Hr) as [_ N].
      rewrite (N c (Fin 0) Hc).
      rewrite (nth_error_nth _ _ [] HX). reflexivity.
    + assert (Hold : tile_before i0 j0 i j).
      { destruct Hb as [Hb|[Hb1 Hb2]]; [left; exact Hb|].
        destruct (Nat.eq_dec j j0) as [->|Hne]; [|right; lia].
        exfalso. subst i.
        assert (T : ((10 * i0 + 1 <=? 10 * i0 + 1 + r)
                     && (10 * i0 + 1 + r <? 10 * i0 + 1 + 8)
                     && (10 * j0 + 1 <=? 10 * j0 + 1 + c)
                     && (10 * j0 + 1 + c <? 10 * j0 + 1 + 8))%nat = true).
        { repeat (apply andb_true_iff; split);
            try (apply Nat.leb_le; lia); apply Nat.ltb_lt; lia. }
        congruence. }
      apply Hin; assumption.
  - intros a b Hn. rewrite G.
    destruct ((10 * i0 + 1 <=? a) && (a <? 10 * i0 + 1 + 8)
              && (10 * j0 + 1 <=? b) && (b <? 10 * j0 + 1 + 8))%nat eqn:B.
    + exfalso.
      repeat (apply andb_true_iff in B; destruct B as [B ?]).
      apply Nat.leb_le in B.
      repeat match goal with
             | H : (_ <=? _)%nat = true |- _ => apply Nat.leb_le in H
             | H : (_ <? _)%nat = true |- _ => apply Nat.ltb_lt in H
             end.
      apply (Hn i0 j0 (a - (10 * i0 + 1))%nat (b - (10 * j0 + 1))%nat);
        try lia.
      right. lia.
    + apply Hout. intros i j r c Hb Hjn Hr Hc.
      apply Hn; try assumption.
      destruct Hb as [Hb|[Hb1 Hb2]]; [left; exact Hb | right; lia].
Qed.

Lemma tile_index_bound (n i j : nat) :
  (i < n)%nat -> (j < n)%nat -> (i * n + j < n * n)%nat.
Proof. intros. nia. Qed.

Lemma seq_split (n i : nat) :
  (i < n)%nat -> seq 0 n = seq 0 i ++ i :: seq (S i) (n - i - 1).
Proof.
  intros H. replace n with (i + S (n - i - 1))%nat at 1 by lia.
  rewrite seq_app. reflexivity.
Qed.

Section Grid.

Variables (n K : nat) (X : list (list float)).

(** The first [K] samples exist and have 64 features each. *)
Hypothesis samples :
  forall k, (k < K)%nat ->
    exists Xk, nth_error X k = Some Xk /\ List.length Xk = 64%nat.

Lemma grid_inner (i0 m j0 : nat) (img : array2) :
  grid_state n X i0 j0 img -> (i0 < n)%nat -> (j0 + m <= n)%nat ->
  (i0 * n + j0 + m <= K)%nat ->
  exists img',
    for_each (seq j0 m)
      (fun j img =>
         Xk <- getitem X (i0 * n + j) ;;
         block <- reshape 8 8 Xk ;;
         setitem_block img (10 * i0 + 1) 8 (10 * j + 1) 8 block) img
    = Ok img' /\
    grid_state n X i0 (j0 + m) img'.
Proof.
  revert j0 img; induction m as [|m IH]; intros j0 img Hs Hi Hm HK.
  - exists img. split; [reflexivity|]. rewrite Nat.add_0_r. exact Hs.
  - destruct (samples (i0 * n + j0)) as (Xk & HX & HL); [lia|].
    destruct (grid_step n X i0 j0 img Xk Hs Hi ltac:(lia) HX HL)
      as (img1 & E1 & S1).
    destruct (IH (S j0) img1 S1 Hi ltac:(lia) ltac:(lia)) as (img2 & E2 & S2).
    exists img2. split.
    + cbn [seq for_each]. rewrite E1. cbn [bind]. exact E2.
    + replace (j0 + S m)%nat with (S j0 + m)%nat by lia. exact S2.
Qed.

Lemma grid_next_row (i0 : nat) (img : array2) :
  grid_state n X i0 n img -> grid_state n X (S i0) 0 img.
Proof.
  intros (HR & HC & Hin & Hout).
  split; [exact HR|]. split; [exact HC|]. split.
  - intros i j r c Hb Hj Hr Hc. apply Hin; try assumption.
    destruct Hb as [Hb|[_ Hb]]; [|lia].
    destruct (Nat.eq_dec i i0) as [->|Hne]; [right; lia | left; lia].
  - intros a b Hn. apply Hout. intros i j r c Hb Hj Hr Hc.
    apply Hn; try assumption.
    destruct Hb as [Hb|[-> Hb]]; left; lia.
Qed.

Lemma grid_outer (m i0 : nat) (img : array2) :
  grid_state n X i0 0 img -> (i0 + m <= n)%nat ->
  ((i0 + m) * n <= K)%nat ->
  exists img',
    for_each (seq i0 m)
      (fun i img =>
         for_each (range n)
           (fun j img =>
              Xk <- getitem X (i * n + j) ;;
              block <- reshape 8 8 Xk ;;
              setitem_block img (10 * i + 1) 8 (10 * j + 1) 8 block) img)
      img
    = Ok img' /\
    grid_state n X (i0 + m) 0 img'.
Proof.
  revert i0 img; induction m as [|m IH]; intros i0 img Hs Hm HK.
  - exists img. split; [reflexivity|]. rewrite Nat.add_0_r. exact Hs.
  - destruct (grid_inner i0 n 0 img Hs ltac:(lia) ltac:(lia) ltac:(nia))
      as (img1 & E1 & S1).
    apply grid_next_row in S1.
    destruct (IH (S i0) img1 S1 ltac:(lia) ltac:(nia)) as (img2 & E2 & S2).
    exists img2. split.
    + cbn [seq for_each]. unfold range at 1. rewrite E1. cbn [bind]. exact E2.
    + replace (i0 + S m)%nat with (S i0 + m)%nat by lia. exact S2.
Qed.

(** The run stops at the first sample that is missing or cannot be
    reshaped. *)
Lemma grid_fails (e : exn) :
  (K < n * n)%nat ->
  (Xk <- getitem X K ;; reshape 8 8 Xk) = Raise e ->
  img_grid n X = Raise e.
Proof.
  intros HK Hbad.
  assert (Hn : n <> 0%nat) by lia.
  pose proof (Nat.div_mod_eq K n) as D.
  pose proof (Nat.mod_upper_bound K n Hn) as B.
  set (i0 := (K / n)%nat) in *. set (j0 := (K mod n)%nat) in *.
  assert (Hi0 : (i0 < n)%nat) by nia.
  assert (EK : K = (i0 * n + j0)%nat) by lia.
  unfold img_grid. unfold range at 1.
  rewrite (seq_split n i0 Hi0), for_each_app.
  destruct (grid_outer i0 0 _ (grid_state_init n X) ltac:(lia) ltac:(lia))
    as (img1 & E1 & S1).
  rewrite E1. cbn [bind for_each]. unfold range.
  rewrite (seq_split n j0 B), for_each_app.
  destruct (grid_inner i0 j0 0 img1 S1 Hi0 ltac:(lia) ltac:(lia))
    as (img2 & E2 & S2).
  cbn [Nat.add] in E2. rewrite E2. cbn [bind for_each]. rewrite <- EK.
  destruct (getitem X K) as [Xk|e'] eqn:G; cbn [bind] in Hbad |- *.
  - rewrite Hbad. reflexivity.
  - injection Hbad as <-. reflexivity.
Qed.

End Grid.

Lemma samples_of (K : nat) (X : list (list float)) :
  (K <= List.length X)%nat ->
  Forall (fun s => List.length s = 64%nat) (firstn K X) ->
  forall k, (k < K)%nat ->
    exists Xk, nth_error X k = Some Xk /\ List.length Xk = 64%nat.
Proof.
  intros HK HF k Hk. exists (nth k X []). split.
  - apply nth_error_nth'. lia.
  - rewrite Forall_forall in HF. apply HF.
    rewrite <- (nth_firstn_lt X K k [] Hk). apply nth_In.
    rewrite length_firstn. lia.
Qed.

(** With at least [n * n] samples of 64 features, the cell succeeds and
    [img] is a [10 n] x [10 n] array in which the 8 x 8 image of sample
    [i * n + j] occupies rows [10 i + 1 .. 10 i + 8] and columns
    [10 j + 1 .. 10 j + 8]: pixel [(r, c)] of the image is feature
    [8 r + c] of the sample.  The tiles never overwrite each other. *)
Theorem img_grid_pixels (n_img_per_row : nat) (X : list (list float)) :
  (n_img_per_row * n_img_per_row <= List.length X)%nat ->
  Forall (fun s => List.length s = 64%nat)
         (firstn (n_img_per_row * n_img_per_row) X) ->
  exists img,
    img_grid n_img_per_row X = Ok img /\
    List.length img = (10 * n_img_per_row)%nat /\
    Forall (fun row => List.length row = (10 * n_img_per_row)%nat) img /\
    forall i j r c,
      (i < n_img_per_row)%nat -> (j < n_img_per_row)%nat ->
      (r < 8)%nat -> (c < 8)%nat ->
      get2 img (10 * i + 1 + r) (10 * j + 1 + c) =
      nth (8 * r + c) (nth (i * n_img_per_row + j) X []) (Fin 0).
Proof.
  intros HK HF.
  destruct (grid_outer n_img_per_row (n_img_per_row * n_img_per_row) X
              (samples_of _ X HK HF) n_img_per_row 0 _
              (grid_state_init n_img_per_row X) ltac:(lia) ltac:(lia))
    as (img & E & (HR & HC & Hin & _)).
  exists img. split; [exact E|]. split; [exact HR|]. split; [exact HC|].
  intros i j r c Hi Hj Hr Hc. apply Hin; try assumption.
  left. exact Hi.
Qed.

Lemma img_grid_pixels_witness :
  (1 * 1 <= List.length [sample_ramp])%nat /\
  exists img,
    img_grid 1 [sample_ramp] = Ok img /\
    List.length img = (10 * 1)%nat /\
    Forall (fun row => List.length row = (10 * 1)%nat) img /\
    forall i j r c,
      (i < 1)%nat -> (j < 1)%nat -> (r < 8)%nat -> (c < 8)%nat ->
      get2 img (10 * i + 1 + r) (10 * j + 1 + c) =
      nth (8 * r + c) (nth (i * 1 + j) [sample_ramp] []) (Fin 0).
Proof.
  assert (H1 : (1 * 1 <= List.length [sample_ramp])%nat) by (simpl; lia).
  assert (H2 : Forall (fun s => List.length s = 64%nat)
                 (firstn (1 * 1) [sample_ramp]))
    by (constructor; [reflexivity | constructor]).
  split; [exact H1|].
  exact (img_grid_pixels 1 [sample_ramp] H1 H2).
Defined.

(** Under the same condition the margins of the grid stay zero: every
    cell in a row or a column of index [10 i] or [10 i + 9] is 0. *)
Theorem img_grid_margins (n_img_per_row : nat) (X : list (list float)) :
  (n_img_per_row * n_img_per_row <= List.length X)%nat ->
  Forall (fun s => List.length s = 64%nat)
         (firstn (n_img_per_row * n_img_per_row) X) ->
  exists img,
    img_grid n_img_per_row X = Ok img /\
    forall i k,
      get2 img (10 * i) k = Fin 0 /\ get2 img (10 * i + 9) k = Fin 0 /\
      get2 img k (10 * i) = Fin 0 /\ get2 img k (10 * i + 9) = Fin 0.
Proof.
  intros HK HF.
  destruct (grid_outer n_img_per_row (n_img_per_row * n_img_per_row) X
              (samples_of _ X HK HF) n_img_per_row 0 _
              (grid_state_init n_img_per_row X) ltac:(lia) ltac:(lia))
    as (img & E & (_ & _ & _ & Hout)).
  exists img. split; [exact E|].
  intros i k. repeat split; apply Hout; intros i' j' r c _ _ Hr Hc [A B]; lia.
Qed.

Lemma img_grid_margins_witness :
  (1 * 1 <= List.length [sample_ramp])%nat /\
  exists img,
    img_grid 1 [sample_ramp] = Ok img /\
    forall i k,
      get2 img (10 * i) k = Fin 0 /\ get2 img (10 * i + 9) k = Fin 0 /\
      get2 img k (10 * i) = Fin 0 /\ get2 img k (10 * i + 9) = Fin 0.
Proof.
  assert (H1 : (1 * 1 <= List.length [sample_ramp])%nat) by (simpl; lia).
  assert (H2 : Forall (fun s => List.length s = 64%nat)
                 (firstn (1 * 1) [sample_ramp]))
    by (constructor; [reflexivity | constructor]).
  split; [exact H1|].
  exact (img_grid_margins 1 [sample_ramp] H1 H2).
Defined.

(** The cell fails at the first sample it cannot place: with fewer than
    [n * n] samples, all of 64 features, the subscript [X[i * n + j]]
    raises [IndexError]; a sample among the first [n * n] whose size
    is not 64, the ones before it being fine, makes [reshape((8, 8))]
    raise [ValueError]. *)
Theorem img_grid_failures (n_img_per_row : nat) (X : list (list float)) :
  ((List.length X < n_img_per_row * n_img_per_row)%nat ->
   Forall (fun s => List.length s = 64%nat) X ->
   img_grid n_img_per_row X = Raise IndexError) /\
  (forall k Xk,
      (k < n_img_per_row * n_img_per_row)%nat ->
      nth_error X k = Some Xk -> List.length Xk <> 64%nat ->
      Forall (fun s => List.length s = 64%nat) (firstn k X) ->
      img_grid n_img_per_row X = Raise ValueError).
Proof.
  split.
  - intros HL HF.
    apply (grid_fails n_img_per_row (List.length X) X).
    + apply samples_of; [lia|]. rewrite firstn_all. exact HF.
    + exact HL.
    + rewrite getitem_Raise by lia. reflexivity.
  - intros k Xk Hk HX HL HF.
    apply (grid_fails n_img_per_row k X).
    + apply samples_of; [|exact HF].
      apply Nat.lt_le_incl. apply nth_error_Some. rewrite HX. discriminate.
    + exact Hk.
    + unfold getitem. rewrite HX. cbn [bind]. unfold reshape.
      destruct (Nat.eqb_spec (List.length Xk) (8 * 8)) as [E|_]; [|reflexivity].
      simpl in E. contradiction.
Qed.

Lemma img_grid_failures_witness :
  (List.length [sample_ramp] < 2 * 2)%nat /\
  Forall (fun s => List.length s = 64%nat) [sample_ramp] /\
  img_grid 2 [sample_ramp] = Raise IndexError.
Proof.
  assert (H1 : (List.length [sample_ramp] < 2 * 2)%nat) by (simpl; lia).
  assert (H2 : Forall (fun s => List.length s = 64%nat) [sample_ramp])
    by (constructor; [reflexivity | constructor]).
  split; [exact H1|]. split; [exact H2|].
  exact (proj1 (img_grid_failures 2 [sample_ramp]) H1 H2).
Defined.

(* ------------------------------------------------------------------ *)
(** ** Choosing the regularisation parameter *)

Lemma lt_fle (a b : float) : (a <? b) = true -> fle a b.
Proof.
  destruct a as [p| | |], b as [q| | |]; simpl; try easy.
  intros H. apply Qltb_true in H. apply Qlt_le_weak. exact H.
Qed.

Lemma lt_false_fle (a b : float) :
  notnan a = true -> notnan b = true -> (a <? b) = false -> fle b a.
Proof.
  destruct a as [p| | |], b as [q| | |]; simpl; try easy.
  intros _ _ H. apply Qltb_false in H. exact H.
Qed.

Lemma fle_lt_trans (a b c : float) :
  fle a b -> (b <? c) = true -> (a <? c) = true.
Proof.
  destruct a as [p| | |], b as [q| | |], c as [r| | |]; simpl; try easy.
  intros H1 H2. apply Qltb_true in H2. apply Qltb_true. lra.
Qed.

Lemma argmax_better_notnan (best x : float) :
  notnan best = true -> notnan x = true ->
  argmax_better best x = (best <? x).
Proof. destruct best, x; simpl; try easy. Qed.

Lemma argmax_from_spec (l pre : list float) (best_i : nat) (best : float) :
  forallb notnan l = true -> notnan best = true ->
  nth_error pre best_i = Some best ->
  (forall x, In x pre -> fle x best) ->
  (forall j x, (j < best_i)%nat -> nth_error pre j = Some x ->
               (x <? best) = true) ->
  exists m,
    nth_error (pre ++ l) (argmax_from best_i best (List.length pre) l)
    = Some m /\
    m = fold_left Np.maximum l best /\
    (forall x, In x (pre ++ l) -> fle x m) /\
    (forall j x,
        (j < argmax_from best_i best (List.length pre) l)%nat ->
        nth_error (pre ++ l) j = Some x -> (x <? m) = true).
Proof.
  revert pre best_i best; induction l as [|x l IH];
    intros pre best_i best Hl Hb Hn Hle Hlt.
  - exists best. rewrite app_nil_r. simpl. repeat split; assumption.
  - simpl in Hl. apply andb_true_iff in Hl. destruct Hl as [Hx Hl].
    cbn [argmax_from fold_left].
    rewrite (argmax_better_notnan best x Hb Hx).
    assert (Hlen : List.length (pre ++ [x]) = S (List.length pre))
      by (rewrite length_app; simpl; lia).
    replace (pre ++ x :: l) with ((pre ++ [x]) ++ l)
      by (rewrite <- app_assoc; reflexivity).
    rewrite <- Hlen.
    assert (Hbi : (best_i < List.length pre)%nat)
      by (apply nth_error_Some; rewrite Hn; discriminate).
    destruct (best <? x) eqn:L.
    + assert (M : Np.maximum best x = x).
      { unfold Np.maximum. rewrite L. destruct best, x; try easy. }
      rewrite M. apply IH; try assumption.
      * rewrite nth_error_app2 by lia. rewrite Nat.sub_diag. reflexivity.
      * intros y Hy. apply in_app_or in Hy. destruct Hy as [Hy|[<-|[]]].
        -- eapply fle_trans; [apply Hle; exact Hy | apply lt_fle; exact L].
        -- apply fle_refl. exact Hx.
      * intros j y Hj Hy. rewrite nth_error_app1 in Hy by exact Hj.
        apply (fle_lt_trans y best x); [|exact L].
        apply Hle. exact (nth_error_In _ _ Hy).
    + assert (M : Np.maximum best x = best).
      { unfold Np.maximum. rewrite L. destruct best, x; try easy. }
      rewrite M. apply IH; try assumption.
      * rewrite nth_error_app1 by exact Hbi. exact Hn.
      * intros y Hy. apply in_app_or in Hy. destruct Hy as [Hy|[<-|[]]].
        -- apply Hle. exact Hy.
        -- apply lt_false_fle; assumption.
      * intros j y Hj Hy. rewrite nth_error_app1 in Hy by lia.
        exact (Hlt j y Hj Hy).
Qed.

Lemma np_argmax_spec (l : list float) :
  l <> [] -> forallb notnan l = true ->
  exists i m,
    np_argmax l = Ok i /\ Np.max l = Ok m /\ nth_error l i = Some m /\
    (forall x, In x l -> fle x m) /\
    (forall j x, (j < i)%nat -> nth_error l j = Some x -> (x <? m) = true).
Proof.
  destruct l as [|a l]; [congruence|]. intros _ H.
  simpl in H. apply andb_true_iff in H. destruct H as [Ha Hl].
  destruct (argmax_from_spec l [a] 0 a Hl Ha eq_refl) as (m & E & Em & Hle & Hlt).
  - intros x [<-|[]]. apply fle_refl. exact Ha.
  - intros j x Hj. lia.
  - exists (argmax_from 0 a 1 l), m. simpl in E.
    split; [reflexivity|]. split; [simpl; congruence|].
    split; [exact E|]. split; [exact Hle | exact Hlt].
Qed.

Lemma error_curves_eq (score_train score_test : float -> float)
      (alphas : list float) :
  error_curves score_train score_test alphas =
  (map score_train alphas, map score_test alphas).
Proof.
  unfold error_curves.
  assert (G : forall l tr te,
             fold_left
               (fun errors alpha =>
                  (fst errors ++ [score_train alpha],
                   snd errors ++ [score_test alpha])) l (tr, te) =
             (tr ++ map score_train l, te ++ map score_test l)).
  { induction l as [|a l IH]; intros tr te; simpl.
    - rewrite !app_nil_r. reflexivity.
    - rewrite IH, <- !app_assoc. reflexivity. }
  apply G.
Qed.

(** When no test score is [nan], the parameter [alpha_optim] is the
    first entry of [alphas] whose test score is the largest: every
    other entry scores at most as much, every earlier one strictly
    less.  The line [p3] is drawn at [alpha_optim] from 0 up to exactly
    the test score of [alpha_optim], so it ends on the test curve. *)
Theorem optimum_attains_best_test_score
        (score_train score_test : float -> float) (alphas : list float) :
  alphas <> [] ->
  (forall a, In a alphas -> notnan (score_test a) = true) ->
  exists i_alpha_optim alpha_optim,
    optimum_marker score_train score_test alphas =
    Ok (i_alpha_optim, alpha_optim,
        ([alpha_optim; alpha_optim], [Fin 0; score_test alpha_optim])) /\
    nth_error alphas i_alpha_optim = Some alpha_optim /\
    (forall a, In a alphas -> fle (score_test a) (score_test alpha_optim)) /\
    (forall j a, (j < i_alpha_optim)%nat -> nth_error alphas j = Some a ->
                 (score_test a <? score_test alpha_optim) = true).
Proof.
  intros Hne Hs. unfold optimum_marker. rewrite error_curves_eq. cbn [snd].
  assert (Hn : forallb notnan (map score_test alphas) = true).
  { apply forallb_forall. intros x Hx. apply in_map_iff in Hx.
    destruct Hx as (a & <- & Ha). apply Hs. exact Ha. }
  assert (Hne' : map score_test alphas <> [])
    by (destruct alphas; simpl; congruence).
  destruct (np_argmax_spec _ Hne' Hn) as (i & m & Ea & Em & Ei & Hle & Hlt).
  rewrite Ea, Em. cbn [bind].
  rewrite nth_error_map in Ei.
  destruct (nth_error alphas i) as [ao|] eqn:Eo; [|discriminate Ei].
  simpl in Ei. injection Ei as <-.
  exists i, ao. unfold getitem. rewrite Eo. cbn [bind].
  split; [reflexivity|]. split; [reflexivity|]. split.
  - intros a Ha. apply Hle. apply in_map. exact Ha.
  - intros j a Hj Hj'. apply (Hlt j); [exact Hj|].
    rewrite nth_error_map, Hj'. reflexivity.
Qed.

Lemma optimum_attains_best_test_score_witness :
  [Fin 1; Fin 2; Fin 3; Fin 4] <> [] /\
  exists i_alpha_optim alpha_optim,
    optimum_marker (fun a => a) (fun a => a * (Fin 4 - a))
      [Fin 1; Fin 2; Fin 3; Fin 4] =
    Ok (i_alpha_optim, alpha_optim,
        ([alpha_optim; alpha_optim],
         [Fin 0; alpha_optim * (Fin 4 - alpha_optim)])) /\
    nth_error [Fin 1; Fin 2; Fin 3; Fin 4] i_alpha_optim = Some alpha_optim /\
    (forall a, In a [Fin 1; Fin 2; Fin 3; Fin 4] ->
               fle (a * (Fin 4 - a)) (alpha_optim * (Fin 4 - alpha_optim))) /\
    (forall j a, (j < i_alpha_optim)%nat ->
                 nth_error [Fin 1; Fin 2; Fin 3; Fin 4] j = Some a ->
                 (a * (Fin 4 - a) <? alpha_optim * (Fin 4 - alpha_optim)) = true).
Proof.
  assert (H1 : [Fin 1; Fin 2; Fin 3; Fin 4] <> []) by discriminate.
  split; [exact H1|].
  refine (optimum_attains_best_test_score (fun a => a)
            (fun a => a * (Fin 4 - a)) [Fin 1; Fin 2; Fin 3; Fin 4] H1 _).
  intros a [<-|[<-|[<-|[<-|[]]]]]; reflexivity.
Defined.

(** An empty list of parameters makes [np.argmax] raise [ValueError]. *)
Lemma optimum_marker_empty (score_train score_test : float -> float) :
  optimum_marker score_train score_test [] = Raise ValueError.
Proof. reflexivity. Qed.

Lemma argmax_from_nan (l : list float) (best_i i : nat) :
  argmax_from best_i NaN i l = best_i.
Proof.
  revert i; induction l as [|x l IH]; intros i; simpl; [reflexivity|].
  apply IH.
Qed.

Lemma argmax_from_first_nan (pre post : list float) (best_i i : nat)
      (best : float) :
  forallb notnan pre = true -> notnan best = true ->
  argmax_from best_i best i (pre ++ NaN :: post) = (i + List.length pre)%nat.
Proof.
  revert best_i i best; induction pre as [|x pre IH];
    intros best_i i best Hp Hb; simpl.
  - replace (argmax_better best NaN) with true by (destruct best; easy).
    rewrite argmax_from_nan. lia.
  - simpl in Hp. apply andb_true_iff in Hp. destruct Hp as [Hx Hp].
    destruct (argmax_better best x).
    + rewrite (IH i (S i) x Hp Hx). lia.
    + rewrite (IH best_i (S i) best Hp Hb). lia.
Qed.

Lemma np_argmax_first_nan (pre post : list float) :
  forallb notnan pre = true ->
  np_argmax (pre ++ NaN :: post) = Ok (List.length pre).
Proof.
  intros Hp. destruct pre as [|a pre]; simpl.
  - rewrite argmax_from_nan. reflexivity.
  - simpl in Hp. apply andb_true_iff in Hp. destruct Hp as [Ha Hp].
    rewrite (argmax_from_first_nan pre post 0 1 a Hp Ha). reflexivity.
Qed.

Lemma np_max_nan (l : list float) :
  In NaN l -> Np.max l = Ok NaN.
Proof.
  intros H. assert (Hne : l <> []) by (destruct l; [destruct H | discriminate]).
  rewrite (np_max_Ok l Hne). f_equal. apply max_of_nan.
  destruct (forallb notnan l) eqn:E; [|reflexivity].
  rewrite forallb_forall in E. specialize (E NaN H). discriminate.
Qed.

(** A [nan] test score is taken for the best one: [alpha_optim] is then
    the first parameter whose test score is [nan], whatever the other
    scores, and the line [p3] has height [nan]. *)
Theorem optimum_is_first_nan_score
        (score_train score_test : float -> float)
        (pre post : list float) (a : float) :
  (forall b, In b pre -> notnan (score_test b) = true) ->
  score_test a = NaN ->
  optimum_marker score_train score_test (pre ++ a :: post) =
  Ok (List.length pre, a, ([a; a], [Fin 0; NaN])).
Proof.
  intros Hp Ha. unfold optimum_marker. rewrite error_curves_eq. cbn [snd].
  rewrite map_app. cbn [map]. rewrite Ha.
  rewrite np_argmax_first_nan, length_map.
  2:{ apply forallb_forall. intros x Hx. apply in_map_iff in Hx.
      destruct Hx as (b & <- & Hb). apply Hp. exact Hb. }
  cbn [bind]. unfold getitem.
  rewrite nth_error_app2, Nat.sub_diag by lia. cbn [nth_error bind].
  rewrite np_max_nan by (apply in_or_app; right; left; reflexivity).
  reflexivity.
Qed.

Lemma optimum_is_first_nan_score_witness :
  Np.div (Fin 0) (Fin 2 - Fin 2) = NaN /\
  optimum_marker (fun a => a) (fun a => Fin 0 / (a - Fin 2))
    ([Fin 1] ++ Fin 2 :: [Fin 3]) =
  Ok (List.length [Fin 1], Fin 2, ([Fin 2; Fin 2], [Fin 0; NaN])).
Proof.
  assert (H : Np.div (Fin 0) (Fin 2 - Fin 2) = NaN) by reflexivity.
  split; [exact H|].
  refine (optimum_is_first_nan_score (fun a => a)
            (fun a => Fin 0 / (a - Fin 2)) [Fin 1] [Fin 3] (Fin 2) _ H).
  intros b [<-|[]]. reflexivity.
Defined.

(* ------------------------------------------------------------------ *)
(** ** Repeated samples *)





